(** * DeepThink chat client: streaming JSON extraction and file operations

    A shallow embedding of the parts of [DeepThink/gui.py] that consume the
    token stream of a chat completion, detect the JSON payload it carries,
    and apply the file operations the payload describes:

    - [create_file], [read_local_file], [apply_diff_edit] (module level);
    - [DeepSeekEngineerGUI.handle_assistant_response];
    - the streaming loop of [DeepSeekEngineerGUI.process_message];
    - [DeepSeekEngineerGUI.get_api_balance].

    Python [str] values are represented by their UTF-8 encoding, as Rocq
    [string]s.  Substring search and replacement on valid UTF-8 agree with the
    same operations on code points; the whitespace test of [str.strip] is
    written out on the encoded form. *)

From Stdlib Require Import ZArith NArith Ascii Lia.
From stdpp Require Import base option list gmap strings.

Set Warnings "-register-all".
Set Default Proof Using "Type".

(* ===================================================================== *)
(** ** Python string operations *)
(* ===================================================================== *)

Module PyStr.

(** The character [chr(34)], the JSON string delimiter. *)
Definition dquote : ascii := ascii_of_nat 34.

(** [q s] is [s] between two double quotes. *)
Definition q (s : string) : string :=
  String dquote (s +:+ String dquote "").

(** [s.startswith(p)]. *)
Definition startswith (s p : string) : bool := String.prefix p s.

(** [bool(s)]: a string is truthy when it is not empty. *)
Definition truthy (s : string) : bool :=
  match s with "" => false | String _ _ => true end.

(** [p in s]. *)
Fixpoint contains (p s : string) : bool :=
  String.prefix p s ||
  match s with
  | "" => false
  | String _ s' => contains p s'
  end.

(** [s[n:]]. *)
Fixpoint drop (n : nat) (s : string) : string :=
  match n, s with
  | O, _ => s
  | S _, "" => ""
  | S n', String _ s' => drop n' s'
  end.

(** [s.replace(old, new, 1)]: the leftmost occurrence of [old] is replaced,
    the text on both sides is kept; without an occurrence [s] is returned. *)
Fixpoint replace_first (old new s : string) : string :=
  if String.prefix old s then new +:+ drop (String.length old) s
  else match s with
       | "" => ""
       | String c s' => String c (replace_first old new s')
       end.

(** Number of leading bytes of [l] that encode one whitespace character in
    the sense of [str.isspace] (0 when [l] does not start with one):
    U+0009..U+000D, U+001C..U+0020, U+0085, U+00A0, U+1680, U+2000..U+200A,
    U+2028, U+2029, U+202F, U+205F, U+3000. *)
Definition space_width (l : list N) : nat :=
  match l with
  | b0 :: tl =>
    if ((9 <=? b0) && (b0 <=? 13) || (28 <=? b0) && (b0 <=? 32))%N then 1
    else match tl with
    | b1 :: tl' =>
      if ((b0 =? 194) && ((b1 =? 133) || (b1 =? 160)))%N then 2
      else match tl' with
      | b2 :: _ =>
        if ((b0 =? 225) && (b1 =? 154) && (b2 =? 128)
            || (b0 =? 226) && (b1 =? 128)
               && ((128 <=? b2) && (b2 <=? 138) || (b2 =? 168) || (b2 =? 169)
                   || (b2 =? 175))
            || (b0 =? 226) && (b1 =? 129) && (b2 =? 159)
            || (b0 =? 227) && (b1 =? 128) && (b2 =? 128))%N then 3
        else 0
      | [] => 0
      end
    | [] => 0
    end
  | [] => 0
  end.

(** The same test read from the end of the text: [l] is the reversed text. *)
Definition space_width_rev (l : list N) : nat :=
  match l with
  | b0 :: tl =>
    if ((9 <=? b0) && (b0 <=? 13) || (28 <=? b0) && (b0 <=? 32))%N then 1
    else match tl with
    | b1 :: tl' =>
      if ((b1 =? 194) && ((b0 =? 133) || (b0 =? 160)))%N then 2
      else match tl' with
      | b2 :: _ => if Nat.eqb (space_width [b2; b1; b0]) 3 then 3 else 0
      | [] => 0
      end
    | [] => 0
    end
  | [] => 0
  end.

Fixpoint strip_with (width : list N → nat) (fuel : nat) (l : list N) : list N :=
  match fuel with
  | O => l
  | S fuel' =>
    match width l with
    | O => l
    | w => strip_with width fuel' (skipn w l)
    end
  end.

Definition bytes (s : string) : list N :=
  N_of_ascii <$> String.list_ascii_of_string s.

Definition of_bytes (l : list N) : string :=
  String.string_of_list_ascii (ascii_of_N <$> l).

(** [s.lstrip()], [s.rstrip()] and [s.strip()]. *)
Definition lstrip (s : string) : string :=
  of_bytes (strip_with space_width (String.length s) (bytes s)).

Definition rstrip (s : string) : string :=
  of_bytes (rev (strip_with space_width_rev (String.length s) (rev (bytes s)))).

Definition strip (s : string) : string := rstrip (lstrip s).

(** [s.endswith(p)]. *)
Definition endswith (s p : string) : bool :=
  String.prefix (String.rev p) (String.rev s).

(** [s.split(sep)] for a one-character separator: the pieces between the
    separators, empty pieces included; never the empty list. *)
Fixpoint split (sep : ascii) (s : string) : list string :=
  match s with
  | "" => [""]
  | String c s' =>
    if Ascii.eqb c sep then "" :: split sep s'
    else match split sep s' with
         | piece :: pieces => String c piece :: pieces
         | [] => [String c ""]
         end
  end.

(** [sep.join(parts)]. *)
Fixpoint join (sep : string) (parts : list string) : string :=
  match parts with
  | [] => ""
  | [p] => p
  | p :: rest => p +:+ sep +:+ join sep rest
  end.

(** ["".join(parts)]. *)
Definition concat (parts : list string) : string := foldr String.append "" parts.

End PyStr.

(* ===================================================================== *)
(** ** JSON values and [json.loads] *)
(* ===================================================================== *)

Module Json.

(** What [json.loads] builds: [None], [bool], [int], [float], [str], [list]
    and [dict].  A float is kept as the text it was read from; a dict is the
    list of its items in insertion order, its keys pairwise distinct. *)
Inductive value : Type :=
  | JNull
  | JBool (b : bool)
  | JInt (z : Z)
  | JFloat (text : string)
  | JStr (s : string)
  | JArr (items : list value)
  | JObj (items : list (string * value)).

(** [d[k] = v] on the item list of a dict: an existing key keeps its place. *)
Fixpoint dict_set (d : list (string * value)) (k : string) (v : value)
  : list (string * value) :=
  match d with
  | [] => [(k, v)]
  | (k', v') :: d' =>
    if String.eqb k' k then (k, v) :: d' else (k', v') :: dict_set d' k v
  end.

(** [d.get(k)] on the item list of a dict. *)
Fixpoint dict_get (d : list (string * value)) (k : string) : option value :=
  match d with
  | [] => None
  | (k', v) :: d' => if String.eqb k' k then Some v else dict_get d' k
  end.

Definition is_ws (c : ascii) : bool :=
  match c with
  | " " | "009" | "010" | "013" => true
  | _ => false
  end%char.

(** The decoder's [WHITESPACE] pattern, [[ \t\n\r]*]. *)
Fixpoint skip_ws (s : string) : string :=
  match s with
  | String c s' => if is_ws c then skip_ws s' else s
  | "" => ""
  end.

Definition is_digit (c : ascii) : bool :=
  let n := N_of_ascii c in ((48 <=? n) && (n <=? 57))%N.

Definition hex_val (c : ascii) : option N :=
  let n := N_of_ascii c in
  if ((48 <=? n) && (n <=? 57))%N then Some (n - 48)%N
  else if ((97 <=? n) && (n <=? 102))%N then Some (n - 87)%N
  else if ((65 <=? n) && (n <=? 70))%N then Some (n - 55)%N
  else None.

Definition hex4 (a b c d : ascii) : option N :=
  x1 ← hex_val a; x2 ← hex_val b; x3 ← hex_val c; x4 ← hex_val d;
  Some (x1 * 4096 + x2 * 256 + x3 * 16 + x4)%N.

(** UTF-8 encoding of one code point (surrogates are encoded like any other
    three-byte code point). *)
Definition utf8 (cp : N) : string :=
  PyStr.of_bytes
    (if (cp <? 128)%N then [cp]
     else if (cp <? 2048)%N then [192 + cp / 64; 128 + cp mod 64]
     else if (cp <? 65536)%N then
       [224 + cp / 4096; 128 + (cp / 64) mod 64; 128 + cp mod 64]
     else [240 + cp / 262144; 128 + (cp / 4096) mod 64;
           128 + (cp / 64) mod 64; 128 + cp mod 64])%N.

Definition is_high_surrogate (cp : N) : bool := ((55296 <=? cp) && (cp <=? 56319))%N.
Definition is_low_surrogate (cp : N) : bool := ((56320 <=? cp) && (cp <=? 57343))%N.
Definition join_surrogates (hi lo : N) : N :=
  (65536 + (hi - 55296) * 1024 + (lo - 56320))%N.

(** The simple escapes: quote, backslash, slash, b, f, n, r, t. *)
Definition unescape (c : ascii) : option ascii :=
  if Ascii.eqb c PyStr.dquote then Some PyStr.dquote
  else match c with
       | "\" => Some "\"
       | "/" => Some "/"
       | "b" => Some "008"
       | "f" => Some "012"
       | "n" => Some "010"
       | "r" => Some "013"
       | "t" => Some "009"
       | _ => None
       end%char.

Definition cons_str (p : string) (r : option (string * string))
  : option (string * string) :=
  match r with
  | Some (s, rest) => Some (p +:+ s, rest)
  | None => None
  end.

(** [scanstring] in strict mode, started after the opening quote: the decoded
    text and the input after the closing quote.  A control character, an
    unknown escape or a missing closing quote is an error. *)
Fixpoint scanstring (s : string) : option (string * string) :=
  match s with
  | "" => None
  | String c r =>
    if Ascii.eqb c PyStr.dquote then Some ("", r)
    else if Ascii.eqb c "\" then
      match r with
      | "" => None
      | String "u" (String h1 (String h2 (String h3 (String h4 r2)))) =>
        match hex4 h1 h2 h3 h4 with
        | None => None
        | Some cp =>
          match r2 with
          | String b (String u (String g1 (String g2 (String g3 (String g4 r3))))) =>
            match hex4 g1 g2 g3 g4 with
            | Some lo =>
              if is_high_surrogate cp && Ascii.eqb b "\" && Ascii.eqb u "u"
                 && is_low_surrogate lo
              then cons_str (utf8 (join_surrogates cp lo)) (scanstring r3)
              else cons_str (utf8 cp) (scanstring r2)
            | None =>
              if is_high_surrogate cp && Ascii.eqb b "\" && Ascii.eqb u "u"
              then None
              else cons_str (utf8 cp) (scanstring r2)
            end
          | _ => cons_str (utf8 cp) (scanstring r2)
          end
        end
      | String e r1 =>
        match unescape e with
        | Some d => cons_str (String d "") (scanstring r1)
        | None => None
        end
      end
    else if (N_of_ascii c <? 32)%N then None
    else cons_str (String c "") (scanstring r)
  end.

(** The longest run of ASCII digits at the head of [s], and what follows. *)
Fixpoint span_digits (s : string) : string * string :=
  match s with
  | String c s' =>
    if is_digit c then let '(ds, r) := span_digits s' in (String c ds, r)
    else ("", s)
  | "" => ("", "")
  end.

Fixpoint digits_value (acc : Z) (ds : string) : Z :=
  match ds with
  | "" => acc
  | String c ds' => digits_value (10 * acc + Z.of_N (N_of_ascii c - 48)) ds'
  end.

(** The fraction [(\.[0-9]+)?] at the head of [s]. *)
Definition scan_frac (s : string) : string * string :=
  match s with
  | String "." r =>
    let '(fd, r1) := span_digits r in
    match fd with "" => ("", s) | _ => ("." +:+ fd, r1) end
  | _ => ("", s)
  end.

(** The exponent [([eE][-+]?[0-9]+)?] at the head of [s]. *)
Definition scan_exp (s : string) : string * string :=
  match s with
  | String e r =>
    if Ascii.eqb e "e" || Ascii.eqb e "E" then
      let '(sg, r1) :=
        match r with
        | String "+" t => ("+", t)
        | String "-" t => ("-", t)
        | _ => ("", r)
        end in
      let '(ed, r2) := span_digits r1 in
      match ed with
      | "" => ("", s)
      | _ => (String e sg +:+ ed, r2)
      end
    else ("", s)
  | _ => ("", s)
  end.

(** The scanner's number pattern: an optional minus sign, then [0] or a
    digit [1-9] followed by digits, then an optional fraction and an optional
    exponent.  The value is an [int] when neither fraction nor exponent is
    present, a [float] otherwise. *)
Definition scan_number (s : string) : option (value * string) :=
  let '(neg, s1) :=
    match s with String "-" r => (true, r) | _ => (false, s) end in
  match s1 with
  | String c r =>
    let int_part :=
      if Ascii.eqb c "0" then Some ("0", r)
      else if is_digit c then
        let '(ds, r1) := span_digits r in Some (String c ds, r1)
      else None in
    match int_part with
    | None => None
    | Some (ids, r1) =>
      let '(frac, r2) := scan_frac r1 in
      let '(exp, r3) := scan_exp r2 in
      match frac, exp with
      | "", "" =>
        Some (JInt (if neg then - digits_value 0 ids else digits_value 0 ids), r3)
      | _, _ =>
        Some (JFloat ((if neg then "-" else "") +:+ ids +:+ frac +:+ exp), r3)
      end
    end
  | "" => None
  end.

(** The scanner: one JSON value at the head of [s] and the input after it.
    [fuel] bounds the nesting depth plus the number of items; the length of
    the input plus one is always enough. *)
Fixpoint scan_once (fuel : nat) (s : string) : option (value * string) :=
  match fuel with
  | O => None
  | S fuel' =>
    match s with
    | "" => None
    | String c r =>
      if Ascii.eqb c PyStr.dquote then
        match scanstring r with
        | Some (str, r1) => Some (JStr str, r1)
        | None => None
        end
      else if Ascii.eqb c "{" then
        match skip_ws r with
        | String "}" r1 => Some (JObj [], r1)
        | r1 => scan_pairs fuel' [] r1
        end
      else if Ascii.eqb c "[" then
        match skip_ws r with
        | String "]" r1 => Some (JArr [], r1)
        | r1 => scan_items fuel' [] r1
        end
      else if String.prefix "null" s then Some (JNull, PyStr.drop 4 s)
      else if String.prefix "true" s then Some (JBool true, PyStr.drop 4 s)
      else if String.prefix "false" s then Some (JBool false, PyStr.drop 5 s)
      else if String.prefix "NaN" s then Some (JFloat "NaN", PyStr.drop 3 s)
      else if String.prefix "Infinity" s then Some (JFloat "Infinity", PyStr.drop 8 s)
      else if String.prefix "-Infinity" s then Some (JFloat "-Infinity", PyStr.drop 9 s)
      else scan_number s
    end
  end

(** [JSONObject] after the opening brace and its whitespace, at a key. *)
with scan_pairs (fuel : nat) (acc : list (string * value)) (s : string)
  : option (value * string) :=
  match fuel with
  | O => None
  | S fuel' =>
    match s with
    | String c r =>
      if Ascii.eqb c PyStr.dquote then
        match scanstring r with
        | Some (key, r1) =>
          match skip_ws r1 with
          | String ":" r2 =>
            match scan_once fuel' (skip_ws r2) with
            | Some (v, r3) =>
              match skip_ws r3 with
              | String "}" r4 => Some (JObj (dict_set acc key v), r4)
              | String "," r4 => scan_pairs fuel' (dict_set acc key v) (skip_ws r4)
              | _ => None
              end
            | None => None
            end
          | _ => None
          end
        | None => None
        end
      else None
    | "" => None
    end
  end

(** [JSONArray] after the opening bracket and its whitespace, at a value. *)
with scan_items (fuel : nat) (acc : list value) (s : string)
  : option (value * string) :=
  match fuel with
  | O => None
  | S fuel' =>
    match scan_once fuel' s with
    | Some (v, r1) =>
      match skip_ws r1 with
      | String "]" r2 => Some (JArr (acc ++ [v]), r2)
      | String "," r2 => scan_items fuel' (acc ++ [v]) (skip_ws r2)
      | _ => None
      end
    | None => None
    end
  end.

(** [json.loads(s)]: [None] stands for [JSONDecodeError]. *)
Definition loads (s : string) : option value :=
  match scan_once (S (String.length s)) (skip_ws s) with
  | Some (v, r) => match skip_ws r with "" => Some v | _ => None end
  | None => None
  end.

End Json.

(* ===================================================================== *)
(** ** The file system and the path libraries *)
(* ===================================================================== *)

(** A POSIX file tree without symbolic links and without permission bits.
    A location is the list of names leading from the root to a node.  The
    errors are those that path lookup itself can raise. *)
Module FS.

Inductive node : Type :=
  | File (content : string)
  | Dir.

Inductive oserror : Type :=
  | ENOENT    (* FileNotFoundError *)
  | ENOTDIR   (* NotADirectoryError *)
  | EISDIR    (* IsADirectoryError *)
  | EEXIST.   (* FileExistsError *)

Record state : Type := mkState {
  nodes : gmap (list string) node;
  cwd : list string
}.

#[global] Instance node_eq_dec : EqDecision node.
Proof. solve_decision. Defined.

#[global] Instance oserror_eq_dec : EqDecision oserror.
Proof. solve_decision. Defined.

(** The node at a location; the root directory always exists. *)
Definition kind (st : state) (loc : list string) : option node :=
  match loc with
  | [] => Some Dir
  | _ => nodes st !! loc
  end.

(** One step of path lookup: [comp] is looked up in the directory [cur]. *)
Definition step (st : state) (cur : list string) (comp : string)
  : oserror + list string :=
  match kind st cur with
  | None => inl ENOENT
  | Some (File _) => inl ENOTDIR
  | Some Dir =>
    inr (if decide (comp = "" ∨ comp = ".") then cur
         else if decide (comp = "..") then removelast cur
         else cur ++ [comp])
  end.

Fixpoint walk (st : state) (cur : list string) (comps : list string)
  : oserror + list string :=
  match comps with
  | [] => inr cur
  | comp :: comps' =>
    match step st cur comp with
    | inl e => inl e
    | inr cur' => walk st cur' comps'
    end
  end.

(** The location a path string names.  Every directory on the way must
    exist; the last component itself need not. *)
Definition resolve (st : state) (path : string) : oserror + list string :=
  match path with
  | "" => inl ENOENT
  | _ =>
    walk st (if PyStr.startswith path "/" then [] else cwd st)
         (PyStr.split "/" path)
  end.

Definition set_node (st : state) (loc : list string) (n : node) : state :=
  mkState (<[loc := n]> (nodes st)) (cwd st).

(** [os.mkdir(path)]. *)
Definition os_mkdir (st : state) (path : string) : oserror + state :=
  match resolve st path with
  | inl e => inl e
  | inr loc =>
    match kind st loc with
    | Some _ => inl EEXIST
    | None => inr (set_node st loc Dir)
    end
  end.

(** [os.path.isdir(path)]. *)
Definition is_dir (st : state) (path : string) : bool :=
  match resolve st path with
  | inr loc => match kind st loc with Some Dir => true | _ => false end
  | inl _ => false
  end.

(** [open(path, "r").read()]. *)
Definition read_file (st : state) (path : string) : oserror + string :=
  match resolve st path with
  | inl e => inl e
  | inr loc =>
    match kind st loc with
    | Some (File c) => inr c
    | Some Dir => inl EISDIR
    | None => inl ENOENT
    end
  end.

(** [open(path, "w").write(content)]: the file is created or truncated. *)
Definition write_file (st : state) (path content : string) : oserror + state :=
  match resolve st path with
  | inl e => inl e
  | inr loc =>
    match kind st loc with
    | Some Dir => inl EISDIR
    | _ => inr (set_node st loc (File content))
    end
  end.

(** [os.getcwd()]. *)
Definition getcwd (st : state) : string := "/" +:+ PyStr.join "/" (cwd st).

(** Every node but the root lies in a directory. *)
Definition wf (st : state) : Prop :=
  ∀ loc n, nodes st !! loc = Some n → loc ≠ [] →
           kind st (removelast loc) = Some Dir.

End FS.

(** [posixpath]: the functions behind [os.path] on a POSIX system. *)
Module PosixPath.

Definition isabs (s : string) : bool := PyStr.startswith s "/".

(** One round of [join(a, *p)]. *)
Definition join2 (path b : string) : string :=
  if PyStr.startswith b "/" then b
  else if negb (PyStr.truthy path) || PyStr.endswith path "/" then path +:+ b
  else path +:+ "/" +:+ b.

Definition join (a : string) (p : list string) : string := foldl join2 a p.

(** The body of the loop of [normpath]. *)
Definition normpath_step (initial_slashes : nat) (new_comps : list string)
    (comp : string) : list string :=
  if bool_decide (comp = "" ∨ comp = ".") then new_comps
  else if bool_decide (comp ≠ "..")
          || (Nat.eqb initial_slashes 0 && bool_decide (new_comps = []))
          || (bool_decide (new_comps ≠ []) && bool_decide (last new_comps = Some ".."))
       then new_comps ++ [comp]
  else if bool_decide (new_comps ≠ []) then removelast new_comps
  else new_comps.

Definition initial_slashes (path : string) : nat :=
  if PyStr.startswith path "/" then
    if PyStr.startswith path "//" && negb (PyStr.startswith path "///") then 2
    else 1
  else 0.

Definition normpath (path : string) : string :=
  match path with
  | "" => "."
  | _ =>
    let n := initial_slashes path in
    let comps := foldl (normpath_step n) [] (PyStr.split "/" path) in
    let out := PyStr.concat (replicate n "/") +:+ PyStr.join "/" comps in
    match out with "" => "." | _ => out end
  end.

Definition abspath (cwd path : string) : string :=
  normpath (if isabs path then path else join cwd [path]).

(** [len(commonprefix([l1, l2]))] for two lists of path components. *)
Fixpoint common_len (l1 l2 : list string) : nat :=
  match l1, l2 with
  | x :: l1', y :: l2' => if String.eqb x y then S (common_len l1' l2') else 0
  | _, _ => 0
  end.

Definition nonempty_parts (s : string) : list string :=
  filter (λ x, x ≠ "") (PyStr.split "/" s).

(** [relpath(path)] with the default [start], the current directory [cwd];
    [None] stands for the [ValueError] raised on an empty path. *)
Definition relpath (cwd path : string) : option string :=
  match path with
  | "" => None
  | _ =>
    let start_list := nonempty_parts (abspath cwd ".") in
    let path_list := nonempty_parts (abspath cwd path) in
    let i := common_len start_list path_list in
    let rel_list := replicate (length start_list - i) ".." ++ drop i path_list in
    match rel_list with
    | [] => Some "."
    | a :: p => Some (join a p)
    end
  end.

End PosixPath.

(** [pathlib.Path] on a POSIX system: a path is its anchor and its parts.
    Empty components and [.] are dropped when the path is built, [..] is
    kept. *)
Module PathLib.

Record Path : Type := mkPath {
  anchored : bool;
  parts : list string
}.

Definition of_str (s : string) : Path :=
  mkPath (PyStr.startswith s "/")
         (filter (λ c, c ≠ "" ∧ c ≠ ".") (PyStr.split "/" s)).

(** [str(p)]. *)
Definition to_str (p : Path) : string :=
  if anchored p then "/" +:+ PyStr.join "/" (parts p)
  else match parts p with
       | [] => "."
       | _ => PyStr.join "/" (parts p)
       end.

(** [p.parent]: the anchor and the empty path are their own parents. *)
Definition parent (p : Path) : Path :=
  mkPath (anchored p) (removelast (parts p)).

(** [p.mkdir(parents=False, exist_ok=True)]. *)
Definition mkdir_one (st : FS.state) (p : Path) : FS.oserror + FS.state :=
  match FS.os_mkdir st (to_str p) with
  | inr st' => inr st'
  | inl FS.ENOENT => inl FS.ENOENT
  | inl e => if FS.is_dir st (to_str p) then inr st else inl e
  end.

(** [p.mkdir(parents=True, exist_ok=True)], by recursion on the parts of
    [p] read from the last one: [rparts] is [reverse (parts p)].  A state
    is returned in both cases: directories made before a failure stay. *)
Fixpoint mkdir_parents (st : FS.state) (anch : bool) (rparts : list string)
  : FS.state * option FS.oserror :=
  let p := mkPath anch (reverse rparts) in
  match FS.os_mkdir st (to_str p) with
  | inr st' => (st', None)
  | inl FS.ENOENT =>
    match rparts with
    | [] => (st, Some FS.ENOENT)
    | _ :: rest =>
      match mkdir_parents st anch rest with
      | (st1, Some e) => (st1, Some e)
      | (st1, None) =>
        match mkdir_one st1 p with
        | inr st2 => (st2, None)
        | inl e => (st1, Some e)
        end
      end
    end
  | inl e => if FS.is_dir st (to_str p) then (st, None) else (st, Some e)
  end.

Definition mkdir (st : FS.state) (p : Path) : FS.state * option FS.oserror :=
  mkdir_parents st (anchored p) (reverse (parts p)).

End PathLib.

(* ===================================================================== *)
(** ** Exceptions, payload models and the module-level file helpers *)
(* ===================================================================== *)

(** The exceptions the modelled code can raise, each with what it was
    raised about. *)
Inductive exn : Type :=
  | JSONDecodeError (doc : string)
  | OSError (e : FS.oserror) (path : string)
  | ValidationError (model : string) (input : Json.value)
  | TypeError (v : Json.value)
  | AttributeError (v : Json.value)
  | ValueError (v : Json.value)
  | RequestException (reason : string).

(** [isinstance(e, FileNotFoundError)]. *)
Definition is_FileNotFoundError (e : exn) : bool :=
  match e with
  | OSError FS.ENOENT _ => true
  | _ => false
  end.

(** The pydantic models.  A [str] field accepts a JSON string only; keys the
    model does not declare are ignored. *)
Module FileToCreate.
Record t : Type := mk { path : string; content : string }.

Definition validate (item : Json.value) : exn + t :=
  match item with
  | Json.JObj d =>
    match Json.dict_get d "path", Json.dict_get d "content" with
    | Some (Json.JStr p), Some (Json.JStr c) => inr (mk p c)
    | _, _ => inl (ValidationError "FileToCreate" item)
    end
  | _ => inl (ValidationError "FileToCreate" item)
  end.
End FileToCreate.

Module FileToEdit.
Record t : Type := mk {
  path : string;
  original_snippet : string;
  new_snippet : string
}.

Definition validate (item : Json.value) : exn + t :=
  match item with
  | Json.JObj d =>
    match Json.dict_get d "path", Json.dict_get d "original_snippet",
          Json.dict_get d "new_snippet" with
    | Some (Json.JStr p), Some (Json.JStr o), Some (Json.JStr n) =>
      inr (mk p o n)
    | _, _, _ => inl (ValidationError "FileToEdit" item)
    end
  | _ => inl (ValidationError "FileToEdit" item)
  end.
End FileToEdit.

Module AssistantResponse.
Record t : Type := mk {
  assistant_reply : string;
  files_to_create : list FileToCreate.t;
  files_to_edit : list FileToEdit.t
}.
End AssistantResponse.

(** [read_local_file(file_path)]. *)
Definition read_local_file (st : FS.state) (file_path : string)
  : exn + string :=
  match FS.read_file st file_path with
  | inl e => inl (OSError e file_path)
  | inr text => inr text
  end.

(** [create_file(path, content)]: the parent directories are made first,
    then the file is written. *)
Definition create_file (st : FS.state) (path content : string)
  : FS.state * (exn + string) :=
  let file_path := PathLib.of_str path in
  match PathLib.mkdir st (PathLib.parent file_path) with
  | (st1, Some e) =>
    (st1, inl (OSError e (PathLib.to_str (PathLib.parent file_path))))
  | (st1, None) =>
    match FS.write_file st1 (PathLib.to_str file_path) content with
    | inl e => (st1, inl (OSError e (PathLib.to_str file_path)))
    | inr st2 =>
      (st2, inr ("✓ Created/updated file at '" +:+ PathLib.to_str file_path +:+ "'"))
    end
  end.

(** [apply_diff_edit(path, original_snippet, new_snippet)]: the whole body
    is under [except FileNotFoundError]. *)
Definition apply_diff_edit (st : FS.state)
    (path original_snippet new_snippet : string) : FS.state * (exn + string) :=
  let not_found :=
    inr ("✗ File not found for diff editing: '" +:+ path +:+ "'") in
  match read_local_file st path with
  | inl e => (st, if is_FileNotFoundError e then not_found else inl e)
  | inr content =>
    if PyStr.contains original_snippet content then
      let updated_content :=
        PyStr.replace_first original_snippet new_snippet content in
      match create_file st path updated_content with
      | (st1, inl e) => (st1, if is_FileNotFoundError e then not_found else inl e)
      | (st1, inr _) => (st1, inr ("✓ Applied diff edit to '" +:+ path +:+ "'"))
      end
    else
      (st, inr ("⚠ Original snippet not found in '" +:+ path
                +:+ "'. No changes made."))
  end.

(* ===================================================================== *)
(** ** The window: conversation, log and file system *)
(* ===================================================================== *)

(** A [MessageBubble]: the text of its label and its two flags. *)
Record bubble : Type := mkBubble {
  text : string;
  is_user : bool;
  is_reasoning : bool
}.

(** What the handlers read and change.  [handled] and [loads_calls] are
    not program variables: they record, in order, the arguments of the calls
    of [handle_assistant_response] and count the calls of [json.loads]. *)
Record gui : Type := mkGui {
  fs : FS.state;
  message_widgets : list bubble;
  log : list string;
  handled : list string;
  loads_calls : nat
}.

Definition with_fs (g : gui) (st : FS.state) : gui :=
  mkGui st (message_widgets g) (log g) (handled g) (loads_calls g).

(** [self.append_to_conversation(text, is_user=False)]: a new bubble at the
    end of the conversation. *)
Definition append_to_conversation (g : gui) (msg : string) : gui :=
  mkGui (fs g) (message_widgets g ++ [mkBubble msg false false]) (log g)
        (handled g) (loads_calls g).

(** [logging.error(msg)]. *)
Definition logging_error (g : gui) (msg : string) : gui :=
  mkGui (fs g) (message_widgets g) (log g ++ [msg]) (handled g) (loads_calls g).

(** [label.configure(text=label.cget("text") + token)] on bubble [i]. *)
Definition extend_label (g : gui) (i : nat) (token : string) : gui :=
  mkGui (fs g)
        (alter (λ b, mkBubble (text b +:+ token) (is_user b) (is_reasoning b))
               i (message_widgets g))
        (log g) (handled g) (loads_calls g).

Definition note_loads (g : gui) : gui :=
  mkGui (fs g) (message_widgets g) (log g) (handled g) (S (loads_calls g)).

Definition note_handled (g : gui) (response_text : string) : gui :=
  mkGui (fs g) (message_widgets g) (log g) (handled g ++ [response_text])
        (loads_calls g).

(* ===================================================================== *)
(** ** [handle_assistant_response] *)
(* ===================================================================== *)

(** [bool(v)]: a float is falsy when all digits of its mantissa are [0]
    (underflow to zero of a huge negative exponent is not modelled). *)
Fixpoint mantissa_nonzero (s : string) : bool :=
  match s with
  | "" => false
  | String c s' =>
    if Ascii.eqb c "e" || Ascii.eqb c "E" then false
    else (Json.is_digit c && negb (Ascii.eqb c "0")) || mantissa_nonzero s'
  end.

Definition py_truthy (v : Json.value) : bool :=
  match v with
  | Json.JNull => false
  | Json.JBool b => b
  | Json.JInt z => negb (Z.eqb z 0)
  | Json.JFloat t =>
    PyStr.contains "N" t || PyStr.contains "I" t || mantissa_nonzero t
  | Json.JStr s => PyStr.truthy s
  | Json.JArr l => match l with [] => false | _ => true end
  | Json.JObj d => match d with [] => false | _ => true end
  end.

(** [isinstance(v, dict)]. *)
Definition is_dict (v : Json.value) : bool :=
  match v with Json.JObj _ => true | _ => false end.

(** The items a [for] loop draws from [v]; numbers, booleans and [None]
    raise [TypeError]. *)
Definition iterate (v : Json.value) : exn + list Json.value :=
  match v with
  | Json.JArr l => inr l
  | Json.JStr s =>
    inr ((λ c, Json.JStr (String c "")) <$> String.list_ascii_of_string s)
  | Json.JObj d => inr ((λ kv, Json.JStr kv.1) <$> d)
  | _ => inl (TypeError v)
  end.

(** The list comprehension over [items]: a dict item becomes a model
    instance, any other item is kept as it is; the first failing item
    raises. *)
Fixpoint convert_items {A : Type} (validate : Json.value → exn + A)
    (items : list Json.value) : exn + list (Json.value + A) :=
  match items with
  | [] => inr []
  | item :: items' =>
    if is_dict item then
      match validate item with
      | inl e => inl e
      | inr m =>
        match convert_items validate items' with
        | inl e => inl e
        | inr ms => inr (inr m :: ms)
        end
      end
    else
      match convert_items validate items' with
      | inl e => inl e
      | inr ms => inr (inl item :: ms)
      end
  end.

(** The block under [# Handle files_to_create] (and [files_to_edit]): the
    new value of [response_data[key]]. *)
Definition normalize_ops {A : Type} (validate : Json.value → exn + A)
    (key : string) (response_data : list (string * Json.value))
  : exn + list (Json.value + A) :=
  match Json.dict_get response_data key with
  | Some found =>
    let files := if py_truthy found then found else Json.JArr [] in
    let files := if is_dict files then Json.JArr [files] else files in
    match iterate files with
    | inl e => inl e
    | inr items => convert_items validate items
    end
  | None => inr []
  end.

(** A list field of [AssistantResponse] accepts model instances only. *)
Fixpoint all_models {A : Type} (l : list (Json.value + A)) : option (list A) :=
  match l with
  | [] => Some []
  | inr m :: l' => cons m <$> all_models l'
  | inl _ :: _ => None
  end.

(** [key in response_data] and the subscript or [get] that follows, when
    [response_data] is not a dict. *)
Definition not_a_dict_error (response_data : Json.value) : exn :=
  match response_data with
  | Json.JStr s =>
    if PyStr.contains "files_to_create" s then AttributeError response_data
    else TypeError response_data
  | Json.JArr l =>
    if existsb (λ v, match v with
                     | Json.JStr s => String.eqb s "files_to_create"
                     | _ => false
                     end) l
    then AttributeError response_data
    else TypeError response_data
  | _ => TypeError response_data
  end.

(** From the parsed payload to the validated [AssistantResponse]. *)
Definition build_response (response_data : Json.value)
  : exn + AssistantResponse.t :=
  match response_data with
  | Json.JObj d =>
    match normalize_ops FileToCreate.validate "files_to_create" d with
    | inl e => inl e
    | inr creates =>
      match normalize_ops FileToEdit.validate "files_to_edit" d with
      | inl e => inl e
      | inr edits =>
        match Json.dict_get d "assistant_reply", all_models creates,
              all_models edits with
        | Some (Json.JStr reply), Some cs, Some es =>
          inr (AssistantResponse.mk reply cs es)
        | _, _, _ => inl (ValidationError "AssistantResponse" response_data)
        end
      end
    end
  | _ => inl (not_a_dict_error response_data)
  end.

Section Handlers.

(** [str(e)]. *)
Context (exn_text : exn → string).

(** The path [create_file] is given: an absolute path is made relative to
    the current directory. *)
Definition creation_path (st : FS.state) (path : string) : string :=
  if PosixPath.isabs path then
    default path (PosixPath.relpath (FS.getcwd st) path)
  else path.

(** The body of [for file in response.files_to_create]. *)
Definition create_one (g : gui) (file : FileToCreate.t) : gui :=
  let path := creation_path (fs g) (FileToCreate.path file) in
  match create_file (fs g) path (FileToCreate.content file) with
  | (st, inr _) =>
    append_to_conversation (with_fs g st) ("✓ Created file: " +:+ path)
  | (st, inl e) =>
    append_to_conversation
      (logging_error (with_fs g st)
         ("Error creating file " +:+ path +:+ ": " +:+ exn_text e))
      ("❌ Error creating file " +:+ path +:+ ": " +:+ exn_text e)
  end.

(** The body of [for file in response.files_to_edit].  Every string
    [apply_diff_edit] returns is non-empty, so [if result:] always holds. *)
Definition edit_one (g : gui) (file : FileToEdit.t) : gui :=
  let path := FileToEdit.path file in
  match apply_diff_edit (fs g) path (FileToEdit.original_snippet file)
                        (FileToEdit.new_snippet file) with
  | (st, inr result) =>
    if PyStr.truthy result then
      append_to_conversation (with_fs g st) ("✓ Updated file: " +:+ path)
    else with_fs g st
  | (st, inl e) =>
    append_to_conversation
      (logging_error (with_fs g st)
         ("Error editing file " +:+ path +:+ ": " +:+ exn_text e))
      ("❌ Error editing file " +:+ path +:+ ": " +:+ exn_text e)
  end.

(** The executor: reply first, then the creations, then the edits. *)
Definition execute (g : gui) (response : AssistantResponse.t) : gui :=
  let g := append_to_conversation g (AssistantResponse.assistant_reply response) in
  let g := foldl create_one g (AssistantResponse.files_to_create response) in
  foldl edit_one g (AssistantResponse.files_to_edit response).

(** [handle_assistant_response(response_text)].  No exception leaves it. *)
Definition handle_assistant_response (g : gui) (response_text : string) : gui :=
  let g := note_loads (note_handled g response_text) in
  match Json.loads response_text with
  | None =>
    let e := JSONDecodeError response_text in
    append_to_conversation
      (logging_error g ("Error parsing assistant response: " +:+ exn_text e))
      ("❌ Error parsing assistant response: " +:+ exn_text e)
  | Some response_data =>
    match build_response response_data with
    | inr response => execute g response
    | inl e =>
      append_to_conversation
        (logging_error g
           ("Unexpected error in handle_assistant_response: " +:+ exn_text e))
        ("❌ Unexpected error: " +:+ exn_text e)
    end
  end.

(* ===================================================================== *)
(** ** The streaming loop of [process_message] *)
(* ===================================================================== *)

(** The local variables of the loop.  [current_response] is the position
    in [message_widgets] of the bubble the plain text goes to. *)
Record locals : Type := mkLocals {
  collected_chunks : list string;
  json_started : bool;
  json_content : string;
  current_response : option nat;
  content : string
}.

Definition initial_locals : locals := mkLocals [] false "" None "".

(** [token.strip().startswith("{")]. *)
Definition opens_json (token : string) : bool :=
  PyStr.startswith (PyStr.strip token) "{".

(** The [else] branch of the loop body: the plain-text channel.  A bubble is
    made for the first token that is not blank. *)
Definition show_token (g : gui) (l : locals) (token : string) : gui * locals :=
  let '(g1, cur) :=
    match current_response l with
    | None =>
      if PyStr.truthy (PyStr.strip token)
      then (append_to_conversation g "", Some (length (message_widgets g)))
      else (g, None)
    | Some i => (g, Some i)
    end in
  let g2 := match cur with
            | Some i => extend_label g1 i token
            | None => g1
            end in
  (g2, mkLocals (collected_chunks l) (json_started l) (json_content l) cur
                (content l)).

(** The loop body for a chunk whose [delta.content] is [token]. *)
Definition on_token (g : gui) (l : locals) (token : string) : gui * locals :=
  let l := mkLocals (collected_chunks l ++ [token]) (json_started l)
                    (json_content l) (current_response l)
                    (content l +:+ token) in
  if negb (json_started l) && opens_json token then
    (g, mkLocals (collected_chunks l) true token (current_response l) (content l))
  else if json_started l then
    let buffer := json_content l +:+ token in
    match Json.loads buffer with
    | Some _ =>
      (handle_assistant_response (note_loads g) buffer,
       mkLocals (collected_chunks l) false "" (current_response l) (content l))
    | None =>
      (note_loads g,
       mkLocals (collected_chunks l) true buffer (current_response l) (content l))
    end
  else show_token g l token.

(** The loop body: a chunk without content changes nothing. *)
Definition on_chunk (s : gui * locals) (delta_content : option string)
  : gui * locals :=
  match delta_content with
  | Some token => on_token s.1 s.2 token
  | None => s
  end.

(** After the loop: [if json_started and json_content:]. *)
Definition flush (s : gui * locals) : gui :=
  if json_started s.2 && PyStr.truthy (json_content s.2)
  then handle_assistant_response s.1 (json_content s.2)
  else s.1.

(** The stream handling of [process_message], from the initialisation of
    the locals to the flush. *)
Definition process_stream (g : gui) (chunks : list (option string)) : gui :=
  flush (foldl on_chunk (g, initial_locals) chunks).

End Handlers.

(* ===================================================================== *)
(** ** [get_api_balance] *)
(* ===================================================================== *)

(** What [requests.get] can do: raise (no connection, timeout, ...) or give
    a response with a status code and a body. *)
Inductive http_result : Type :=
  | Raised (reason : string)
  | Response (status_code : Z) (body : string).

(** [response.raise_for_status()] raises for the codes 400 to 599. *)
Definition is_error_status (status_code : Z) : bool :=
  ((400 <=? status_code) && (status_code <? 600))%Z.

Section Balance.

(** Python floats, the constant [0.0], [float(v)] and [str(e)]. *)
Context {float : Type} (zero : float) (py_float : Json.value → exn + float).
Context (exn_text : exn → string).

(** [get_api_balance()] given the outcome of the request: the balance and
    the lines written to the log. *)
Definition get_api_balance (outcome : http_result) : float * list string :=
  match outcome with
  | Raised reason =>
    (zero, ["API request failed: " +:+ exn_text (RequestException reason)])
  | Response status_code body =>
    if is_error_status status_code then
      (zero, ["API request failed: " +:+ exn_text (RequestException body)])
    else
      match Json.loads body with
      | None =>
        (zero, ["API request failed: " +:+ exn_text (JSONDecodeError body)])
      | Some (Json.JObj d) =>
        match Json.dict_get d "balance" with
        | None => (zero, [])
        | Some v =>
          match py_float v with
          | inr x => (x, [])
          | inl e =>
            (zero,
             [match e with
              | ValueError _ => "Error parsing API response: "
              | _ => "Unexpected error getting API balance: "
              end +:+ exn_text e])
          end
        end
      | Some data =>
        (zero, ["Unexpected error getting API balance: "
                +:+ exn_text (AttributeError data)])
      end
  end.

End Balance.

(* ===================================================================== *)
(** ** Reference inputs *)
(* ===================================================================== *)

(** The text [{"assistant_reply":"x"}], 23 characters long. *)
Definition reply_x : string :=
  "{" +:+ PyStr.q "assistant_reply" +:+ ":" +:+ PyStr.q "x" +:+ "}".

(** All the prefixes of a text, the shortest first. *)
Fixpoint prefixes (s : string) : list string :=
  match s with
  | "" => [""]
  | String c s' => "" :: (String c <$> prefixes s')
  end.



(** A file system that holds one file, in the root directory, which is
    also the current directory. *)
Definition one_file (name text : string) : FS.state :=
  FS.mkState {[ [name] := FS.File text ]} [].


(** A window that has shown and logged nothing yet, over a file system. *)
Definition fresh_window (st : FS.state) : gui := mkGui st [] [] [] 0.

(** A rendering of exceptions, for the examples. *)
Definition plain_text (e : exn) : string :=
  match e with
  | JSONDecodeError _ => "JSONDecodeError"
  | OSError _ path => "OSError: " +:+ path
  | ValidationError model _ => "ValidationError: " +:+ model
  | TypeError _ => "TypeError"
  | AttributeError _ => "AttributeError"
  | ValueError _ => "ValueError"
  | RequestException reason => "RequestException: " +:+ reason
  end.



(** A file system whose only directory besides the root is [/home], the
    current directory. *)
Definition home_dir : FS.state := FS.mkState {[ ["home"] := FS.Dir ]} ["home"].

(** The balance request failed: [requests.get] raised, the status is an
    error status, or the body is not a JSON object. *)
Definition request_failed (outcome : http_result) : bool :=
  match outcome with
  | Raised _ => true
  | Response status_code body =>
    is_error_status status_code
    || match Json.loads body with
       | Some (Json.JObj _) => false
       | _ => true
       end
  end.

(** The normalization of [files_to_create] and [files_to_edit] in the words
    of the specification, as amended: a single object that is not empty is
    wrapped into a one-element list; a missing key, [null] and the empty
    object give the empty list; a list is taken as it is.  Other values are
    not covered. *)
Definition normalized_items (found : option Json.value)
  : option (list Json.value) :=
  match found with
  | None | Some Json.JNull | Some (Json.JObj []) => Some []
  | Some (Json.JObj (kv :: d)) => Some [Json.JObj (kv :: d)]
  | Some (Json.JArr items) => Some items
  | Some _ => None
  end.

(** The text [{"assistant_reply":"hi","files_to_create":{}}]. *)
Definition reply_with_empty_object : string :=
  "{" +:+ PyStr.q "assistant_reply" +:+ ":" +:+ PyStr.q "hi" +:+ ","
  +:+ PyStr.q "files_to_create" +:+ ":{}}".

(** The text
    [{"assistant_reply":"done","files_to_create":{"path":"x.py","content":"print(1)"}}]. *)
Definition reply_with_single_object : string :=
  "{" +:+ PyStr.q "assistant_reply" +:+ ":" +:+ PyStr.q "done" +:+ ","
  +:+ PyStr.q "files_to_create" +:+ ":{" +:+ PyStr.q "path" +:+ ":"
  +:+ PyStr.q "x.py" +:+ "," +:+ PyStr.q "content" +:+ ":"
  +:+ PyStr.q "print(1)" +:+ "}}".

(** The scenario of the specification:
    [{"assistant_reply":"done","files_to_create":[{"path":"x.py","content":"print(1)"}],"files_to_edit":[]}]. *)
Definition reply_scenario : string :=
  "{" +:+ PyStr.q "assistant_reply" +:+ ":" +:+ PyStr.q "done" +:+ ","
  +:+ PyStr.q "files_to_create" +:+ ":[{" +:+ PyStr.q "path" +:+ ":"
  +:+ PyStr.q "x.py" +:+ "," +:+ PyStr.q "content" +:+ ":"
  +:+ PyStr.q "print(1)" +:+ "}]," +:+ PyStr.q "files_to_edit" +:+ ":[]}".

(** The response the handler accepts: the text parses and the payload
    validates. *)
Definition accepted_response (response_text : string)
  : option AssistantResponse.t :=
  match Json.loads response_text with
  | Some response_data =>
    match build_response response_data with
    | inr response => Some response
    | inl _ => None
    end
  | None => None
  end.

(* ===================================================================== *)
(** ** [_process_completion]: the stream handling behind [send_message] *)
(* ===================================================================== *)

(** A chunk of the stream: the two channels of its delta ([None] when the
    attribute is missing or is [None]). *)
Record chunk : Type := mkChunk {
  reasoning_content : option string;
  delta_content : option string
}.

(** The local variables of [_process_completion]; [reasoning_bubble] is
    the position of the reasoning bubble in [message_widgets]. *)
Record completion_locals : Type := mkCompletion {
  reasoning_text : string;
  response_text : string;
  reasoning_bubble : option nat
}.

(** [self.append_to_conversation("", is_user=False, is_reasoning=True)]. *)
Definition append_reasoning_bubble (g : gui) : gui :=
  mkGui (fs g) (message_widgets g ++ [mkBubble "" false true]) (log g)
        (handled g) (loads_calls g).

(** [bubble.text = t] together with [content_label.configure(text=t)]. *)
Definition set_bubble_text (g : gui) (i : nat) (t : string) : gui :=
  mkGui (fs g)
        (alter (λ b, mkBubble t (is_user b) (is_reasoning b)) i (message_widgets g))
        (log g) (handled g) (loads_calls g).

(** The loop body.  Empty strings are skipped on both channels. *)
Definition completion_step (s : gui * completion_locals) (c : chunk)
  : gui * completion_locals :=
  let '(g, l) := s in
  let '(g, l) :=
    match reasoning_content c with
    | Some r =>
      if PyStr.truthy r then
        let '(g, i) :=
          match reasoning_bubble l with
          | None => (append_reasoning_bubble g, length (message_widgets g))
          | Some i => (g, i)
          end in
        let t := reasoning_text l +:+ r in
        (set_bubble_text g i t, mkCompletion t (response_text l) (Some i))
      else (g, l)
    | None => (g, l)
    end in
  match delta_content c with
  | Some token =>
    if PyStr.truthy token then
      (g, mkCompletion (reasoning_text l) (response_text l +:+ token)
                       (reasoning_bubble l))
    else (g, l)
  | None => (g, l)
  end.

(** From the initialisation of the buffers to the call of the handler on
    the complete response.  The usage record, the animation and the state of
    the input widgets are outside the modelled window. *)
Definition process_completion (exn_text : exn → string) (g : gui)
    (chunks : list chunk) : gui :=
  let '(g, l) := foldl completion_step (g, mkCompletion "" "" None) chunks in
  if PyStr.truthy (response_text l)
  then handle_assistant_response exn_text g (response_text l)
  else g.

(** [len(s)] and [s[:n]] count code points: every byte but the
    continuation bytes [10xxxxxx] starts one. *)
Definition is_continuation (c : ascii) : bool :=
  let n := N_of_ascii c in ((128 <=? n) && (n <? 192))%N.

Fixpoint py_len (s : string) : nat :=
  match s with
  | "" => 0
  | String c s' => (if is_continuation c then 0 else 1) + py_len s'
  end.

Fixpoint py_take (n : nat) (s : string) : string :=
  match s with
  | "" => ""
  | String c s' =>
    if is_continuation c then String c (py_take n s')
    else match n with
         | O => ""
         | S n' => String c (py_take n' s')
         end
  end.

(** The text of the preview label of a reasoning bubble: the first line,
    cut after 100 characters, with an ellipsis when something was left out. *)
Definition reasoning_preview (reasoning_text : string) : string :=
  let lines := PyStr.split "010" reasoning_text in
  let preview := if PyStr.truthy reasoning_text then default "" (head lines) else "" in
  if Nat.ltb 100 (py_len preview) then py_take 100 preview +:+ "..."
  else if Nat.ltb 1 (length lines) then preview +:+ "..."
  else preview.

(* ===================================================================== *)
(** ** [DatabaseManager]: the chat history table *)
(* ===================================================================== *)

Module Database.

(** A row of [chat_history]. *)
Record chat_row : Type := mkRow {
  id : nat;
  timestamp : string;
  role : string;
  content : string;
  conversation_id : string;
  is_reasoning : bool
}.

(** What [get_chat_history] returns for a row. *)
Record message : Type := mkMessage {
  m_role : string;
  m_content : string;
  m_is_reasoning : bool
}.

(** [add_chat_message(role, content, conversation_id, is_reasoning)] at the
    time [now]; the table is the list of its rows in insertion order, and no
    row is ever deleted, so the next id is the number of rows plus one. *)
Definition add_chat_message (table : list chat_row) (now : string)
    (role content conversation_id : string) (is_reasoning : bool)
  : list chat_row :=
  table ++ [mkRow (S (length table)) now role content conversation_id is_reasoning].

(** [ORDER BY timestamp ASC] under the binary collation, as an insertion
    sort: rows with equal timestamps keep their insertion order, which the
    database does not promise. *)
Fixpoint insert_row (r : chat_row) (sorted : list chat_row) : list chat_row :=
  match sorted with
  | [] => [r]
  | r' :: rest =>
    if String.ltb (timestamp r) (timestamp r') then r :: r' :: rest
    else r' :: insert_row r rest
  end.

Definition order_by_timestamp (rows : list chat_row) : list chat_row :=
  foldl (λ sorted r, insert_row r sorted) [] rows.

(** [get_chat_history(conversation_id)]. *)
Definition get_chat_history (table : list chat_row) (conversation_id' : string)
  : list message :=
  (λ r, mkMessage (role r) (content r) (is_reasoning r))
    <$> order_by_timestamp
          (filter (λ r, conversation_id r = conversation_id') table).

End Database.

(** The state of the reasoning bubble over the bubbles [widgets] that were
    there before the request: either none was made and no reasoning text has
    arrived, or it is the last bubble and shows the reasoning text so far. *)
Definition reasoning_shown (widgets : list bubble) (s : gui * completion_locals)
  : Prop :=
  match reasoning_bubble s.2 with
  | None => reasoning_text s.2 = "" ∧ message_widgets s.1 = widgets
  | Some i =>
    i = length widgets ∧ reasoning_text s.2 ≠ ""
    ∧ message_widgets s.1 = widgets ++ [mkBubble (reasoning_text s.2) false true]
  end.

(** [st'] has every node of [st], unchanged, and the same current
    directory. *)
Definition fs_extends (st st' : FS.state) : Prop :=
  FS.cwd st' = FS.cwd st ∧ ∀ l n, FS.kind st l = Some n → FS.kind st' l = Some n.

(* ===================================================================== *)
(** * Properties *)
(* ===================================================================== *)

(** ** Sanity checks of the library models *)

Example strip_ex : PyStr.strip "  {a}  " = "{a}". Proof. reflexivity. Qed.
Example split_ex : PyStr.split "/" "a//b/" = ["a"; ""; "b"; ""]. Proof. reflexivity. Qed.
Example repl_ex : PyStr.replace_first "aa" "b" "xaaa" = "xba". Proof. reflexivity. Qed.
Example repl_ex2 : PyStr.replace_first "" "b" "xaaa" = "bxaaa". Proof. reflexivity. Qed.
Example strip_nbsp : PyStr.strip (PyStr.of_bytes [194; 160; 123; 226; 128; 137]%N) = "{". Proof. reflexivity. Qed.

Lemma append_nil_l (s : string) : "" +:+ s = s.
Proof. reflexivity. Qed.

Lemma append_cons (c : ascii) (s t : string) :
  String c s +:+ t = String c (s +:+ t).
Proof. reflexivity. Qed.

Lemma append_nil_r (s : string) : s +:+ "" = s.
Proof.
  induction s as [|c s IH]; [done|]. by rewrite append_cons, IH.
Qed.

Lemma append_assoc (s1 s2 s3 : string) :
  (s1 +:+ s2) +:+ s3 = s1 +:+ (s2 +:+ s3).
Proof.
  induction s1 as [|c s1 IH]; [done|]. by rewrite !append_cons, IH.
Qed.

Lemma append_eq_nil (s1 s2 : string) : s1 +:+ s2 = "" → s1 = "" ∧ s2 = "".
Proof. destruct s1; [done|]. rewrite append_cons. discriminate. Qed.

Lemma append_prefixes (p r s : string) : p +:+ r = s → p ∈ prefixes s.
Proof.
  revert s. induction p as [|c p IH]; intros s Hs.
  - destruct s; simpl; apply list_elem_of_here.
  - rewrite append_cons in Hs. destruct s as [|c' s]; [discriminate|].
    injection Hs as -> Hs. simpl. apply list_elem_of_further.
    apply list_elem_of_fmap. exists p. split; [done | by apply IH].
Qed.

Lemma append_same_r (p r : string) : p +:+ r = p → r = "".
Proof.
  induction p as [|c p IH]; [done|]. rewrite append_cons. intros H.
  injection H as H. auto.
Qed.

Lemma concat_nil_all_empty (tokens : list string) :
  PyStr.concat tokens = "" → Forall (λ t, t = "") tokens.
Proof.
  induction tokens as [|t tokens IH]; intros H; [constructor|].
  apply append_eq_nil in H as [-> H]. constructor; auto.
Qed.

Lemma reply_x_prefix_opens (p : string) :
  p ∈ prefixes reply_x → p ≠ "" → opens_json p = true.
Proof.
  intros Hin Hne.
  assert (Hall : forallb (λ p, bool_decide (p = "") || opens_json p)
                         (prefixes reply_x) = true) by (vm_compute; reflexivity).
  rewrite forallb_forall in Hall. apply list_elem_of_In, Hall in Hin.
  apply orb_true_iff in Hin as [Hin|Hin]; [|done].
  by apply bool_decide_eq_true in Hin.
Qed.

Lemma reply_x_prefix_loads (p : string) :
  p ∈ prefixes reply_x → p ≠ reply_x → Json.loads p = None.
Proof.
  intros Hin Hne.
  assert (Hall : forallb (λ p, bool_decide (p = reply_x)
                               || bool_decide (Json.loads p = None))
                         (prefixes reply_x) = true) by (vm_compute; reflexivity).
  rewrite forallb_forall in Hall. apply list_elem_of_In, Hall in Hin.
  apply orb_true_iff in Hin as [Hin|Hin]; by apply bool_decide_eq_true in Hin.
Qed.

Lemma reply_x_loads :
  Json.loads reply_x = Some (Json.JObj [("assistant_reply", Json.JStr "x")]).
Proof. vm_compute. reflexivity. Qed.

#[global] Arguments handle_assistant_response : simpl never.
#[global] Arguments show_token : simpl never.
#[global] Arguments opens_json : simpl never.
#[global] Arguments Json.loads : simpl never.
#[global] Arguments PyStr.truthy : simpl never.

Section HandlerFrames.
Context (exn_text : exn → string).

Lemma handled_create_one g file :
  handled (create_one exn_text g file) = handled g.
Proof. unfold create_one. by repeat case_match. Qed.

Lemma handled_edit_one g file :
  handled (edit_one exn_text g file) = handled g.
Proof. unfold edit_one. by repeat case_match. Qed.

Lemma handled_foldl {A} (f : gui → A → gui) (l : list A) g :
  (∀ g x, handled (f g x) = handled g) → handled (foldl f g l) = handled g.
Proof.
  intros Hf. revert g. induction l as [|x l IH]; intros g; [done|].
  simpl. by rewrite IH, Hf.
Qed.

Lemma handled_execute g response :
  handled (execute exn_text g response) = handled g.
Proof.
  unfold execute.
  rewrite !handled_foldl by auto using handled_create_one, handled_edit_one.
  done.
Qed.

Lemma handled_handle g response_text :
  handled (handle_assistant_response exn_text g response_text)
  = handled g ++ [response_text].
Proof.
  unfold handle_assistant_response.
  repeat case_match; rewrite ?handled_execute; done.
Qed.

Lemma show_token_frame g l token :
  handled (show_token g l token).1 = handled g
  ∧ json_started (show_token g l token).2 = json_started l
  ∧ json_content (show_token g l token).2 = json_content l.
Proof. unfold show_token. by repeat case_match; simplify_eq. Qed.

Lemma opens_json_empty : opens_json "" = false.
Proof. reflexivity. Qed.

(** Tokens that are all empty, read outside a JSON object, fire nothing. *)
Lemma stream_empty_tokens tokens g l :
  json_started l = false → Forall (λ t, t = "") tokens →
  handled (flush exn_text (foldl (on_chunk exn_text) (g, l) (Some <$> tokens)))
  = handled g.
Proof.
  intros Hstart Hall. revert g l Hstart.
  induction Hall as [|t tokens -> _ IH]; intros g l Hstart.
  - simpl. unfold flush. simpl. by rewrite Hstart.
  - simpl. unfold on_token. simpl. rewrite Hstart, opens_json_empty. simpl.
    destruct (show_token_frame g
      (mkLocals (collected_chunks l ++ [""]) false (json_content l)
                (current_response l) (content l +:+ "")) "") as (Hh & Hs & _).
    destruct (show_token _ _ _) as [g' l']. simpl in *.
    rewrite IH by done. done.
Qed.

(** Inside the object: the buffer is a non-empty prefix of the payload. *)
Lemma stream_inside tokens g l :
  json_started l = true → json_content l ≠ "" →
  json_content l +:+ PyStr.concat tokens = reply_x →
  handled (flush exn_text (foldl (on_chunk exn_text) (g, l) (Some <$> tokens)))
  = handled g ++ [reply_x].
Proof.
  revert g l. induction tokens as [|t tokens IH]; intros g l Hstart Hne Hcat.
  - simpl in *. unfold PyStr.concat in Hcat. simpl in Hcat.
    rewrite append_nil_r in Hcat. unfold flush. simpl. rewrite Hstart, Hcat.
    change (PyStr.truthy reply_x) with true. simpl. by rewrite ?handled_handle.
  - simpl. unfold on_token. simpl. rewrite Hstart. simpl.
    change (PyStr.concat (t :: tokens)) with (t +:+ PyStr.concat tokens) in Hcat.
    rewrite <- append_assoc in Hcat.
    destruct (decide (json_content l +:+ t = reply_x)) as [Heq|Hneq].
    + rewrite Heq, reply_x_loads.
      rewrite Heq in Hcat. apply append_same_r, concat_nil_all_empty in Hcat.
      rewrite stream_empty_tokens by done. by rewrite ?handled_handle.
    + rewrite (reply_x_prefix_loads (json_content l +:+ t))
        by eauto using append_prefixes.
      rewrite IH; [done..| |done]. simpl.
      intros [? _]%append_eq_nil. done.
Qed.

Lemma stream_outside tokens g l :
  json_started l = false →
  PyStr.concat tokens = reply_x →
  handled (flush exn_text (foldl (on_chunk exn_text) (g, l) (Some <$> tokens)))
  = handled g ++ [reply_x].
Proof.
  revert g l. induction tokens as [|t tokens IH]; intros g l Hstart Hcat.
  - discriminate.
  - change (PyStr.concat (t :: tokens)) with (t +:+ PyStr.concat tokens) in Hcat.
    simpl. unfold on_token. simpl. rewrite Hstart. simpl.
    destruct (decide (t = "")) as [->|Hne].
    + rewrite opens_json_empty.
      destruct (show_token_frame g
        (mkLocals (collected_chunks l ++ [""]) false (json_content l)
                  (current_response l) (content l +:+ "")) "") as (Hh & Hs & _).
      destruct (show_token _ _ _) as [g' l']. simpl in *.
      rewrite IH by done. by rewrite Hh.
    + rewrite reply_x_prefix_opens by eauto using append_prefixes.
      by apply stream_inside.
Qed.

(** C1.  Whatever the token boundaries are, a stream whose tokens
    concatenate to the text [reply_x] makes the stream handling call
    [handle_assistant_response] exactly once, with exactly that text.  When
    the object arrives whole, in the token that opens it, the call is the one
    made after the loop. *)
Theorem stream_reply_x_fires_once g tokens :
  PyStr.concat tokens = reply_x →
  handled (process_stream exn_text g (Some <$> tokens)) = handled g ++ [reply_x].
Proof. intros H. by apply stream_outside. Qed.

End HandlerFrames.

Lemma stream_reply_x_fires_once_witness :
  handled
    (process_stream plain_text (fresh_window home_dir)
       (Some <$> ["{" +:+ String PyStr.dquote "assistant"; "_reply" +:+ String PyStr.dquote ":";
                  ""; PyStr.q "x" +:+ "}"]))
  = handled (fresh_window home_dir) ++ [reply_x].
Proof.
  apply (stream_reply_x_fires_once plain_text (fresh_window home_dir)
           ["{" +:+ String PyStr.dquote "assistant"; "_reply" +:+ String PyStr.dquote ":";
            ""; PyStr.q "x" +:+ "}"]).
  vm_compute. reflexivity.
Defined.

Example stream_reply_x_single_token :
  handled (process_stream plain_text (fresh_window home_dir) [Some reply_x])
  = [reply_x]
  ∧ loads_calls (process_stream plain_text (fresh_window home_dir) [Some reply_x])
    = 1.
Proof. vm_compute. done. Qed.

(** *** Splitting and joining on the path separator *)


Lemma split_not_nil (sep : ascii) (s : string) : PyStr.split sep s ≠ [].
Proof.
  destruct s as [|c s]; simpl; [done|].
  destruct (Ascii.eqb c sep); [done|]. by destruct (PyStr.split sep s).
Qed.

(** A piece of a split does not contain the separator: split again, it is
    a single piece. *)
Lemma split_pieces_atomic (sep : ascii) (s x : string) :
  x ∈ PyStr.split sep s → PyStr.split sep x = [x].
Proof.
  revert x. induction s as [|c s IH]; intros x; simpl.
  - intros ->%list_elem_of_singleton. done.
  - destruct (Ascii.eqb c sep) eqn:Hc.
    + intros [->|Hin]%elem_of_cons; [done | by apply IH].
    + destruct (PyStr.split sep s) as [|piece pieces] eqn:Hs.
      * intros ->%list_elem_of_singleton. simpl. by rewrite Hc.
      * intros [->|Hin]%elem_of_cons.
        -- simpl. rewrite Hc, (IH piece); [done | apply list_elem_of_here].
        -- apply IH. by apply list_elem_of_further.
Qed.



Lemma atomic_no_leading_sep (sep : ascii) (x : string) :
  PyStr.split sep x = [x] → x ≠ "" → PyStr.startswith x (String sep "") = false.
Proof.
  destruct x as [|c x]; [done|]. simpl. intros Hx _.
  unfold PyStr.startswith. simpl.
  destruct (Ascii.eqb c sep) eqn:Hc; [done|].
  destruct (ascii_dec sep c) as [->|]; [|done]. by rewrite Ascii.eqb_refl in Hc.
Qed.

(** *** Path lookup *)

Lemma kind_set_node_ne st loc n l :
  l ≠ loc → FS.kind (FS.set_node st loc n) l = FS.kind st l.
Proof.
  intros Hne. unfold FS.kind, FS.set_node. simpl.
  destruct l; [done|]. by rewrite lookup_insert_ne.
Qed.

Lemma kind_set_node_eq st loc n :
  loc ≠ [] → FS.kind (FS.set_node st loc n) loc = Some n.
Proof.
  intros Hne. unfold FS.kind, FS.set_node. simpl.
  destruct loc; [done|]. by rewrite lookup_insert_eq.
Qed.

Lemma step_inv st cur comp loc :
  FS.step st cur comp = inr loc → FS.kind st cur = Some FS.Dir.
Proof. unfold FS.step. by repeat case_match. Qed.

Lemma step_dir st st' cur comp :
  FS.kind st cur = Some FS.Dir → FS.kind st' cur = Some FS.Dir →
  FS.step st' cur comp = FS.step st cur comp.
Proof. unfold FS.step. by intros -> ->. Qed.

Lemma walk_app st cur comps1 comps2 :
  FS.walk st cur (comps1 ++ comps2) =
  match FS.walk st cur comps1 with
  | inl e => inl e
  | inr mid => FS.walk st mid comps2
  end.
Proof.
  revert cur. induction comps1 as [|c comps1 IH]; intros cur; simpl; [done|].
  destruct (FS.step st cur c); [done | apply IH].
Qed.

(** Writing a node that is not a directory leaves every successful lookup
    as it was. *)
Lemma walk_set_node st loc n cur comps l :
  FS.kind st loc ≠ Some FS.Dir →
  FS.walk st cur comps = inr l →
  FS.walk (FS.set_node st loc n) cur comps = inr l.
Proof.
  intros Hloc. revert cur. induction comps as [|c comps IH]; intros cur; simpl; [done|].
  destruct (FS.step st cur c) as [e|cur'] eqn:Hstep; [done|]. intros Hw.
  pose proof (step_inv _ _ _ _ Hstep) as Hdir.
  rewrite (step_dir st), Hstep; [by apply IH | done |].
  rewrite kind_set_node_ne; [done | congruence].
Qed.

(** Dropping the components [""] and ["."] keeps a successful lookup. *)
Lemma walk_filter st cur comps l :
  FS.walk st cur comps = inr l →
  FS.walk st cur (filter (λ c, c ≠ "" ∧ c ≠ ".") comps) = inr l.
Proof.
  revert cur. induction comps as [|c comps IH]; intros cur; simpl; [done|].
  destruct (FS.step st cur c) as [e|cur'] eqn:Hstep; [done|]. intros Hw.
  rewrite filter_cons. case_decide as Hc.
  - simpl. rewrite Hstep. by apply IH.
  - apply IH. unfold FS.step in Hstep.
    destruct (FS.kind st cur) as [[]|]; try done.
    rewrite decide_True in Hstep; [by simplify_eq|].
    destruct (decide (c = "")), (decide (c = ".")); naive_solver.
Qed.


Lemma walk_trivial st cur comps l :
  filter (λ c, c ≠ "" ∧ c ≠ ".") comps = [] →
  FS.walk st cur comps = inr l → l = cur.
Proof.
  intros Hf Hw. apply walk_filter in Hw. rewrite Hf in Hw. simpl in Hw. congruence.
Qed.


(** *** [pathlib] paths and the strings they print as *)





Lemma startswith_append (x t : string) (p : ascii) :
  x ≠ "" → PyStr.startswith (x +:+ t) (String p "") = PyStr.startswith x (String p "").
Proof.
  destruct x as [|c x]; [done|]. intros _. rewrite append_cons.
  unfold PyStr.startswith. simpl. destruct (ascii_dec p c); [|done].
  by destruct x as [|??], (_ +:+ t).
Qed.




(** *** Writing over an existing file *)

Lemma mkdir_parents_unfold st anch rparts :
  PathLib.mkdir_parents st anch rparts =
  let p := PathLib.mkPath anch (reverse rparts) in
  match FS.os_mkdir st (PathLib.to_str p) with
  | inr st' => (st', None)
  | inl FS.ENOENT =>
    match rparts with
    | [] => (st, Some FS.ENOENT)
    | _ :: rest =>
      match PathLib.mkdir_parents st anch rest with
      | (st1, Some e) => (st1, Some e)
      | (st1, None) =>
        match PathLib.mkdir_one st1 p with
        | inr st2 => (st2, None)
        | inl e => (st1, Some e)
        end
      end
    end
  | inl e => if FS.is_dir st (PathLib.to_str p) then (st, None) else (st, Some e)
  end.
Proof. by destruct rparts. Qed.


Lemma removelast_snoc {A} (l : list A) (x : A) : removelast (l ++ [x]) = l.
Proof. apply removelast_last. Qed.



Lemma read_local_file_inv st path text :
  read_local_file st path = inr text →
  ∃ loc, FS.resolve st path = inr loc ∧ FS.kind st loc = Some (FS.File text).
Proof.
  unfold read_local_file, FS.read_file.
  destruct (FS.resolve st path) as [|loc]; [done|].
  destruct (FS.kind st loc) as [[]|] eqn:?; [|done..].
  intros [= ->]. eauto.
Qed.


Lemma apply_diff_edit_absent st path original new text :
  read_local_file st path = inr text →
  PyStr.contains original text = false →
  apply_diff_edit st path original new =
  (st, inr ("⚠ Original snippet not found in '" +:+ path +:+ "'. No changes made.")).
Proof. intros Hread Hin. unfold apply_diff_edit. by rewrite Hread, Hin. Qed.

(** *** Occurrences of a snippet and [str.replace(..., 1)] *)











Lemma with_fs_same g : with_fs g (fs g) = g.
Proof. by destruct g. Qed.

(** C3.  For an existing file that does not contain the snippet,
    [apply_diff_edit] leaves the file system as it is and returns the
    "snippet not found" line, but the edit loop drops that line: what it
    shows is the success line, "Updated file". *)
Theorem edit_absent_snippet_shows_success exn_text g file text :
  read_local_file (fs g) (FileToEdit.path file) = inr text →
  PyStr.contains (FileToEdit.original_snippet file) text = false →
  apply_diff_edit (fs g) (FileToEdit.path file)
      (FileToEdit.original_snippet file) (FileToEdit.new_snippet file)
    = (fs g, inr ("⚠ Original snippet not found in '"
                  +:+ FileToEdit.path file +:+ "'. No changes made."))
  ∧ edit_one exn_text g file
    = append_to_conversation g ("✓ Updated file: " +:+ FileToEdit.path file).
Proof.
  intros Hread Habsent.
  pose proof (apply_diff_edit_absent (fs g) _ _ (FileToEdit.new_snippet file) _
                Hread Habsent) as Hedit.
  split; [done|]. unfold edit_one. rewrite Hedit.
  change (PyStr.truthy (?a +:+ ?b)) with true. cbv iota.
  by rewrite with_fs_same.
Qed.

Lemma edit_absent_snippet_shows_success_witness :
  let g := fresh_window (one_file "notes.txt" "hello world") in
  let file := FileToEdit.mk "notes.txt" "absent" "new" in
  apply_diff_edit (fs g) "notes.txt" "absent" "new"
    = (fs g, inr "⚠ Original snippet not found in 'notes.txt'. No changes made.")
  ∧ edit_one plain_text g file
    = append_to_conversation g "✓ Updated file: notes.txt".
Proof.
  apply (edit_absent_snippet_shows_success plain_text
           (fresh_window (one_file "notes.txt" "hello world"))
           (FileToEdit.mk "notes.txt" "absent" "new") "hello world");
    reflexivity.
Defined.

(** *** The current directory never changes *)

Lemma os_mkdir_cwd st path st' :
  FS.os_mkdir st path = inr st' → FS.cwd st' = FS.cwd st.
Proof. unfold FS.os_mkdir. repeat case_match; naive_solver. Qed.

Lemma mkdir_one_cwd st p st' :
  PathLib.mkdir_one st p = inr st' → FS.cwd st' = FS.cwd st.
Proof.
  unfold PathLib.mkdir_one.
  destruct (FS.os_mkdir st _) eqn:Hmk; [repeat case_match; naive_solver|].
  intros [= <-]. by eapply os_mkdir_cwd.
Qed.

Lemma mkdir_parents_cwd st anch rparts :
  FS.cwd (PathLib.mkdir_parents st anch rparts).1 = FS.cwd st.
Proof.
  induction rparts as [|x rparts IH]; rewrite mkdir_parents_unfold; simpl.
  - destruct (FS.os_mkdir st _) as [e|st'] eqn:Hmk.
    + destruct e; simpl; by repeat case_match.
    + by eapply os_mkdir_cwd.
  - destruct (FS.os_mkdir st _) as [e|st'] eqn:Hmk; [|by eapply os_mkdir_cwd].
    destruct e; simpl; try by repeat case_match.
    destruct (PathLib.mkdir_parents st anch rparts) as [st1 [e|]]; [done|].
    simpl in IH. destruct (PathLib.mkdir_one st1 _) as [|st2] eqn:Hone; [done|].
    simpl. apply mkdir_one_cwd in Hone. congruence.
Qed.

Lemma write_file_cwd st path text st' :
  FS.write_file st path text = inr st' → FS.cwd st' = FS.cwd st.
Proof. unfold FS.write_file. repeat case_match; naive_solver. Qed.

Lemma create_file_cwd st path text :
  FS.cwd (create_file st path text).1 = FS.cwd st.
Proof.
  unfold create_file.
  pose proof (mkdir_parents_cwd st
                (PathLib.anchored (PathLib.parent (PathLib.of_str path)))
                (reverse (PathLib.parts (PathLib.parent (PathLib.of_str path)))))
    as Hmk.
  unfold PathLib.mkdir.
  destruct (PathLib.mkdir_parents _ _ _) as [st1 [e|]]; [done|]. simpl in Hmk.
  destruct (FS.write_file st1 _ text) as [|st2] eqn:Hw; [done|].
  simpl. apply write_file_cwd in Hw. congruence.
Qed.

Lemma apply_diff_edit_cwd st path original new :
  FS.cwd (apply_diff_edit st path original new).1 = FS.cwd st.
Proof.
  unfold apply_diff_edit. destruct (read_local_file st path); [done|].
  destruct (PyStr.contains _ _); [|done].
  pose proof (create_file_cwd st path (PyStr.replace_first original new s)) as Hc.
  by destruct (create_file _ _ _) as [st1 [|]].
Qed.


Section Executor.
Context (exn_text : exn → string).






End Executor.

(** *** [relpath] never returns an absolute path *)

Lemma join2_relative path b :
  path ≠ "" → PosixPath.isabs path = false → PosixPath.isabs b = false →
  PosixPath.join2 path b ≠ "" ∧ PosixPath.isabs (PosixPath.join2 path b) = false.
Proof.
  unfold PosixPath.isabs, PosixPath.join2. intros Hne Hpath ->.
  destruct (negb (PyStr.truthy path) || PyStr.endswith path "/").
  - rewrite startswith_append by done. split; [|done].
    by intros [? _]%append_eq_nil.
  - rewrite startswith_append by done. split; [|done].
    by intros [? _]%append_eq_nil.
Qed.

Lemma join_relative a p :
  a ≠ "" → PosixPath.isabs a = false →
  Forall (λ b, PosixPath.isabs b = false) p →
  PosixPath.isabs (PosixPath.join a p) = false.
Proof.
  intros Hne Ha Hall. revert a Hne Ha.
  induction Hall as [|b p Hb Hall IH]; intros a Hne Ha; simpl; [done|].
  destruct (join2_relative a b) as [? ?]; [done..|]. by apply IH.
Qed.

Lemma nonempty_parts_relative s x :
  x ∈ PosixPath.nonempty_parts s → x ≠ "" ∧ PosixPath.isabs x = false.
Proof.
  unfold PosixPath.nonempty_parts. intros [Hne Hx]%list_elem_of_filter.
  split; [done|]. apply atomic_no_leading_sep; [|done].
  by eapply split_pieces_atomic.
Qed.

Lemma relpath_relative cwd path rel :
  PosixPath.relpath cwd path = Some rel → PosixPath.isabs rel = false.
Proof.
  unfold PosixPath.relpath. destruct path as [|c path]; [done|].
  set (start_list := PosixPath.nonempty_parts _).
  set (path_list := PosixPath.nonempty_parts _).
  set (i := PosixPath.common_len _ _).
  assert (Hall : Forall (λ x, x ≠ "" ∧ PosixPath.isabs x = false)
                        (replicate (length start_list - i) ".." ++ drop i path_list)).
  { apply Forall_app. split.
    - apply Forall_forall. by intros x [-> _]%elem_of_replicate.
    - apply Forall_forall. intros x Hx.
      eapply nonempty_parts_relative, subseteq_drop, Hx. }
  destruct (replicate _ _ ++ _) as [|a p]; [by intros [= <-]|].
  intros [= <-]. apply Forall_cons in Hall as [[??] Hall].
  apply join_relative; [done..|]. eapply Forall_impl; [done|]. by intros ? [??].
Qed.

(** C5.  An absolute creation path is replaced by [relpath] of it, which
    is not absolute, before [create_file] is called, and the creation goes on
    as if the relative path had been given; a relative path is given to
    [create_file] unchanged. *)
Theorem creation_path_relative exn_text g file :
  if PosixPath.isabs (FileToCreate.path file)
  then ∃ rel,
    PosixPath.relpath (FS.getcwd (fs g)) (FileToCreate.path file) = Some rel
    ∧ PosixPath.isabs rel = false
    ∧ creation_path (fs g) (FileToCreate.path file) = rel
    ∧ create_one exn_text g file
      = create_one exn_text g (FileToCreate.mk rel (FileToCreate.content file))
  else creation_path (fs g) (FileToCreate.path file) = FileToCreate.path file.
Proof.
  destruct file as [path content]. simpl. unfold creation_path.
  destruct (PosixPath.isabs path) eqn:Habs; [|done].
  destruct (PosixPath.relpath (FS.getcwd (fs g)) path) as [rel|] eqn:Hrel.
  - pose proof (relpath_relative _ _ _ Hrel) as Hnot.
    exists rel. repeat split; try done.
    unfold create_one, creation_path. simpl. by rewrite Habs, Hrel, Hnot.
  - unfold PosixPath.relpath in Hrel. destruct path; [done|].
    by destruct (replicate _ _ ++ _).
Qed.

Example creation_path_absolute_ex :
  creation_path (FS.mkState ∅ ["home"; "u"]) "/home/u/proj/a.txt" = "proj/a.txt"
  ∧ creation_path (FS.mkState ∅ ["home"; "u"]) "/etc/hosts" = "../../etc/hosts"
  ∧ creation_path (FS.mkState ∅ ["home"; "u"]) "proj/./a.txt" = "proj/./a.txt".
Proof. vm_compute. done. Qed.

Section Stream.
Context (exn_text : exn → string).

(** *** What the handler leaves alone *)

Lemma loads_calls_create_one g file :
  loads_calls (create_one exn_text g file) = loads_calls g.
Proof. unfold create_one. by repeat case_match. Qed.

Lemma loads_calls_edit_one g file :
  loads_calls (edit_one exn_text g file) = loads_calls g.
Proof. unfold edit_one. by repeat case_match. Qed.

Lemma loads_calls_foldl {A} (f : gui → A → gui) (l : list A) g :
  (∀ g x, loads_calls (f g x) = loads_calls g) →
  loads_calls (foldl f g l) = loads_calls g.
Proof.
  intros Hf. revert g. induction l as [|x l IH]; intros g; [done|].
  simpl. by rewrite IH, Hf.
Qed.

Lemma loads_calls_handle g response_text :
  loads_calls (handle_assistant_response exn_text g response_text)
  = S (loads_calls g).
Proof.
  unfold handle_assistant_response, execute.
  repeat case_match;
    rewrite ?loads_calls_foldl
      by auto using loads_calls_create_one, loads_calls_edit_one;
    done.
Qed.

(** *** The buffer is empty whenever the loop is outside a JSON object *)

Lemma on_chunk_buffer_invariant s chunk :
  (json_started s.2 = false → json_content s.2 = "") →
  json_started (on_chunk exn_text s chunk).2 = false →
  json_content (on_chunk exn_text s chunk).2 = "".
Proof.
  destruct s as [g l], chunk as [token|]; simpl; [|done].
  intros Hinv. unfold on_token. simpl.
  destruct (json_started l) eqn:Hstart; simpl.
  - destruct (Json.loads _); simpl; done.
  - destruct (opens_json token); simpl; [done|].
    intros _. destruct (show_token_frame g
      (mkLocals (collected_chunks l ++ [token]) false (json_content l)
                (current_response l) (content l +:+ token)) token) as (_ & _ & ->).
    simpl. auto.
Qed.

Lemma stream_buffer_invariant g chunks :
  json_started (foldl (on_chunk exn_text) (g, initial_locals) chunks).2 = false →
  json_content (foldl (on_chunk exn_text) (g, initial_locals) chunks).2 = "".
Proof.
  induction chunks as [|chunk chunks IH] using rev_ind; [done|].
  rewrite foldl_snoc. by apply on_chunk_buffer_invariant.
Qed.

Lemma show_token_only_widgets g l token :
  fs (show_token g l token).1 = fs g
  ∧ log (show_token g l token).1 = log g
  ∧ loads_calls (show_token g l token).1 = loads_calls g.
Proof. unfold show_token. by repeat case_match; simplify_eq. Qed.

(** C6.  A token that arrives while [json_started] is false and whose
    stripped text does not begin with [{] leaves the buffer empty and the flag
    false, calls neither [json.loads] nor the handler, and is handled by the
    plain-text branch alone. *)
Theorem plain_token_never_buffered g chunks token :
  json_started (foldl (on_chunk exn_text) (g, initial_locals) chunks).2 = false →
  opens_json token = false →
  ∃ g1 l1 g2 l2,
    foldl (on_chunk exn_text) (g, initial_locals) chunks = (g1, l1)
    ∧ foldl (on_chunk exn_text) (g, initial_locals) (chunks ++ [Some token]) = (g2, l2)
    ∧ json_content l1 = "" ∧ json_content l2 = "" ∧ json_started l2 = false
    ∧ (g2, l2) = show_token g1
        (mkLocals (collected_chunks l1 ++ [token]) false ""
                  (current_response l1) (content l1 +:+ token)) token
    ∧ handled g2 = handled g1 ∧ loads_calls g2 = loads_calls g1
    ∧ fs g2 = fs g1 ∧ log g2 = log g1.
Proof.
  intros Hstart Hplain.
  pose proof (stream_buffer_invariant g chunks Hstart) as Hbuf.
  rewrite foldl_snoc.
  destruct (foldl _ _ chunks) as [g1 l1]. simpl in *.
  unfold on_token. simpl. rewrite Hstart, Hplain, Hbuf. simpl.
  set (l1' := mkLocals _ false "" _ _).
  destruct (show_token_frame g1 l1' token) as (Hh & Hs & Hc).
  destruct (show_token_only_widgets g1 l1' token) as (Hf & Hl & Hn).
  destruct (show_token g1 l1' token) as [g2 l2] eqn:Hshow. simpl in *.
  exists g1, l1, g2, l2. subst l1'. rewrite Hshow. by repeat split.
Qed.

(** C7.  When the stream ends with [json_started] true and a non-empty
    buffer, the handler is called once on the buffer and parses it once; when
    that parse fails, an error bubble is added to the conversation (and a line
    to the log), and nothing else changes. *)
Theorem flush_reports_malformed g l :
  json_started l = true → json_content l ≠ "" →
  handled (flush exn_text (g, l)) = handled g ++ [json_content l]
  ∧ loads_calls (flush exn_text (g, l)) = S (loads_calls g)
  ∧ (Json.loads (json_content l) = None →
     flush exn_text (g, l)
     = mkGui (fs g)
         (message_widgets g
          ++ [mkBubble ("❌ Error parsing assistant response: "
                        +:+ exn_text (JSONDecodeError (json_content l)))
                       false false])
         (log g ++ ["Error parsing assistant response: "
                    +:+ exn_text (JSONDecodeError (json_content l))])
         (handled g ++ [json_content l])
         (S (loads_calls g))).
Proof.
  intros Hstart Hne. unfold flush. simpl. rewrite Hstart.
  assert (PyStr.truthy (json_content l) = true) as ->
    by (by destruct (json_content l)).
  simpl. rewrite handled_handle, loads_calls_handle. repeat split.
  intros Hbad. unfold handle_assistant_response. by rewrite Hbad.
Qed.

End Stream.

Lemma plain_token_never_buffered_witness :
  ∃ g1 l1 g2 l2,
    foldl (on_chunk plain_text) (fresh_window (one_file "a.txt" "x"), initial_locals)
          [Some "Sure"] = (g1, l1)
    ∧ foldl (on_chunk plain_text) (fresh_window (one_file "a.txt" "x"), initial_locals)
            ([Some "Sure"] ++ [Some ", done."]) = (g2, l2)
    ∧ json_content l1 = "" ∧ json_content l2 = "" ∧ json_started l2 = false
    ∧ (g2, l2) = show_token g1
        (mkLocals (collected_chunks l1 ++ [", done."]) false ""
                  (current_response l1) (content l1 +:+ ", done.")) ", done."
    ∧ handled g2 = handled g1 ∧ loads_calls g2 = loads_calls g1
    ∧ fs g2 = fs g1 ∧ log g2 = log g1.
Proof.
  apply (plain_token_never_buffered plain_text
           (fresh_window (one_file "a.txt" "x")) [Some "Sure"] ", done.");
    reflexivity.
Defined.

Example plain_tokens_shown :
  message_widgets
    (process_stream plain_text (fresh_window (one_file "a.txt" "x"))
       [Some " "; Some "Sure"; None; Some ", done."])
  = [mkBubble "Sure, done." false false].
Proof. vm_compute. reflexivity. Qed.

Lemma flush_reports_malformed_witness :
  let g := fresh_window (one_file "a.txt" "x") in
  let l := mkLocals ["{"; "oops"] true "{oops" None "{oops" in
  handled (flush plain_text (g, l)) = ["{oops"]
  ∧ loads_calls (flush plain_text (g, l)) = 1
  ∧ message_widgets (flush plain_text (g, l))
    = [mkBubble "❌ Error parsing assistant response: JSONDecodeError" false false].
Proof.
  destruct (flush_reports_malformed plain_text
              (fresh_window (one_file "a.txt" "x"))
              (mkLocals ["{"; "oops"] true "{oops" None "{oops")
              eq_refl ltac:(discriminate))
    as (H1 & H2 & H3).
  intros g l. split; [exact H1|]. split; [exact H2|].
  subst g l. rewrite H3; reflexivity.
Defined.

(** *** Creating a file below directories that do not exist yet *)

Lemma kind_snoc st loc c : FS.kind st (loc ++ [c]) = FS.nodes st !! (loc ++ [c]).
Proof. unfold FS.kind. by destruct loc. Qed.

Lemma snoc_ne_nil {A} (l : list A) (x : A) : l ++ [x] ≠ [].
Proof. by destruct l. Qed.

Lemma wf_missing_child st loc c :
  FS.wf st → FS.kind st loc ≠ Some FS.Dir → FS.kind st (loc ++ [c]) = None.
Proof.
  intros Hwf Hloc. rewrite kind_snoc.
  destruct (FS.nodes st !! (loc ++ [c])) as [n|] eqn:Hn; [|done].
  pose proof (Hwf _ _ Hn (snoc_ne_nil _ _)) as Hdir.
  by rewrite removelast_snoc in Hdir.
Qed.

Lemma step_name st cur c :
  FS.kind st cur = Some FS.Dir → c ≠ "" → c ≠ "." → c ≠ ".." →
  FS.step st cur c = inr (cur ++ [c]).
Proof.
  intros Hk ???. unfold FS.step. rewrite Hk.
  rewrite decide_False by (by intros [?|?]). by rewrite decide_False.
Qed.

Lemma walk_name st cur c comps :
  FS.kind st cur = Some FS.Dir → c ≠ "" → c ≠ "." → c ≠ ".." →
  FS.walk st cur (c :: comps) = FS.walk st (cur ++ [c]) comps.
Proof. intros. simpl. by rewrite step_name. Qed.

Lemma walk_missing st cur c comps :
  FS.kind st cur = None → FS.walk st cur (c :: comps) = inl FS.ENOENT.
Proof. intros Hk. simpl. unfold FS.step. by rewrite Hk. Qed.

Lemma resolve_relative st c path :
  c ≠ "/"%char →
  FS.resolve st (String c path)
  = FS.walk st (FS.cwd st) (PyStr.split "/" (String c path)).
Proof.
  intros Hc. unfold FS.resolve, PyStr.startswith.
  assert (String.prefix "/" (String c path) = false) as ->; [|done].
  change (String.prefix "/" (String c path))
    with (if ascii_dec "/" c then String.prefix "" path else false).
  destruct (ascii_dec "/" c) as [<-|]; done.
Qed.

Lemma snoc_ne_self {A} (l : list A) (x : A) : l ≠ l ++ [x].
Proof.
  intros H. apply (f_equal length) in H. rewrite length_app in H. simpl in H. lia.
Qed.

(** C8.  In a well-formed file system where [a] does not exist in the
    current directory, [create_file] on [a/b/c.txt] makes the directories [a]
    and [a/b] and the file, whose content is the given one, and changes
    nothing else. *)
Theorem create_file_makes_parents st content :
  FS.wf st →
  FS.kind st (FS.cwd st) = Some FS.Dir →
  FS.kind st (FS.cwd st ++ ["a"]) = None →
  ∃ st',
    create_file st "a/b/c.txt" content
      = (st', inr "✓ Created/updated file at 'a/b/c.txt'")
    ∧ FS.cwd st' = FS.cwd st
    ∧ FS.nodes st'
      = <[FS.cwd st ++ ["a"; "b"; "c.txt"] := FS.File content]>
          (<[FS.cwd st ++ ["a"; "b"] := FS.Dir]>
             (<[FS.cwd st ++ ["a"] := FS.Dir]> (FS.nodes st)))
    ∧ FS.is_dir st' "a" = true
    ∧ FS.is_dir st' "a/b" = true
    ∧ read_local_file st' "a/b/c.txt" = inr content.
Proof.
  intros Hwf Hcwd Ha.
  set (cwd := FS.cwd st) in *.
  set (la := cwd ++ ["a"]) in *. set (lb := cwd ++ ["a"; "b"]).
  set (lc := cwd ++ ["a"; "b"; "c.txt"]).
  assert (Hlb : lb = la ++ ["b"]) by (unfold la, lb; by rewrite <- app_assoc).
  assert (Hlc : lc = lb ++ ["c.txt"]) by (unfold lb, lc; by rewrite <- app_assoc).
  assert (Hb : FS.kind st lb = None).
  { rewrite Hlb. apply wf_missing_child; [done|]. by rewrite Ha. }
  assert (Hc : FS.kind st lc = None).
  { rewrite Hlc. apply wf_missing_child; [done|]. by rewrite Hb. }
  set (st1 := FS.set_node st la FS.Dir).
  set (st2 := FS.set_node st1 lb FS.Dir).
  set (st3 := FS.set_node st2 lc (FS.File content)).
  assert (H1cwd : FS.kind st1 cwd = Some FS.Dir).
  { unfold st1. rewrite kind_set_node_ne; [done | apply snoc_ne_self]. }
  assert (H1a : FS.kind st1 la = Some FS.Dir).
  { apply kind_set_node_eq, snoc_ne_nil. }
  assert (H1b : FS.kind st1 lb = None).
  { unfold st1. rewrite kind_set_node_ne; [done|].
    rewrite Hlb. intros H. by apply (snoc_ne_self la "b"). }
  assert (H2cwd : FS.kind st2 cwd = Some FS.Dir).
  { unfold st2. rewrite kind_set_node_ne; [done|].
    intros H. apply (f_equal length) in H. unfold lb in H.
    rewrite length_app in H. simpl in H. lia. }
  assert (H2a : FS.kind st2 la = Some FS.Dir).
  { unfold st2. rewrite kind_set_node_ne; [done|].
    rewrite Hlb. apply snoc_ne_self. }
  assert (H2b : FS.kind st2 lb = Some FS.Dir).
  { apply kind_set_node_eq. rewrite Hlb. apply snoc_ne_nil. }
  assert (H2c : FS.kind st2 lc = None).
  { unfold st2, st1. rewrite !kind_set_node_ne; [done| |].
    - intros H. apply (f_equal length) in H. unfold lc, la in H.
      rewrite !length_app in H. simpl in H. lia.
    - rewrite Hlc. intros H. by apply (snoc_ne_self lb "c.txt"). }
  assert (H3cwd : FS.kind st3 cwd = Some FS.Dir).
  { unfold st3. rewrite kind_set_node_ne; [done|].
    intros H. apply (f_equal length) in H. unfold lc in H.
    rewrite length_app in H. simpl in H. lia. }
  assert (H3a : FS.kind st3 la = Some FS.Dir).
  { unfold st3. rewrite kind_set_node_ne; [done|].
    intros H. apply (f_equal length) in H. unfold lc, la in H.
    rewrite !length_app in H. simpl in H. lia. }
  assert (H3b : FS.kind st3 lb = Some FS.Dir).
  { unfold st3. rewrite kind_set_node_ne; [done|].
    rewrite Hlc. apply snoc_ne_self. }
  assert (H3c : FS.kind st3 lc = Some (FS.File content)).
  { apply kind_set_node_eq. rewrite Hlc. apply snoc_ne_nil. }
  (* the lookups, in the states where they happen *)
  assert (Rab0 : FS.resolve st "a/b" = inl FS.ENOENT).
  { rewrite resolve_relative by done.
    change (PyStr.split "/" "a/b") with ["a"; "b"]. fold cwd.
    rewrite walk_name by done. fold la. by apply walk_missing. }
  assert (Ra0 : FS.resolve st "a" = inr la).
  { rewrite resolve_relative by done.
    change (PyStr.split "/" "a") with ["a"]. fold cwd.
    by rewrite walk_name. }
  assert (Rab : ∀ s, FS.cwd s = cwd → FS.kind s cwd = Some FS.Dir →
                     FS.kind s la = Some FS.Dir → FS.resolve s "a/b" = inr lb).
  { intros s Hs Hk Hka. rewrite resolve_relative by done.
    change (PyStr.split "/" "a/b") with ["a"; "b"]. rewrite Hs.
    rewrite walk_name by done. fold la. rewrite walk_name by done.
    by rewrite <- Hlb. }
  assert (Rabc : ∀ s, FS.cwd s = cwd → FS.kind s cwd = Some FS.Dir →
                      FS.kind s la = Some FS.Dir → FS.kind s lb = Some FS.Dir →
                      FS.resolve s "a/b/c.txt" = inr lc).
  { intros s Hs Hk Hka Hkb. rewrite resolve_relative by done.
    change (PyStr.split "/" "a/b/c.txt") with ["a"; "b"; "c.txt"]. rewrite Hs.
    rewrite walk_name by done. fold la. rewrite walk_name by done.
    rewrite <- Hlb. rewrite walk_name by done. by rewrite <- Hlc. }
  assert (Ra3 : FS.resolve st3 "a" = inr la).
  { rewrite resolve_relative by done.
    change (PyStr.split "/" "a") with ["a"]. change (FS.cwd st3) with cwd.
    by rewrite walk_name. }
  exists st3. split.
  { unfold create_file.
    change (PathLib.of_str "a/b/c.txt") with (PathLib.mkPath false ["a"; "b"; "c.txt"]).
    change (PathLib.parent _) with (PathLib.mkPath false ["a"; "b"]).
    unfold PathLib.mkdir.
    change (reverse (PathLib.parts (PathLib.mkPath false ["a"; "b"]))) with ["b"; "a"].
    change (PathLib.anchored (PathLib.mkPath false ["a"; "b"])) with false.
    rewrite mkdir_parents_unfold. cbv zeta.
    change (PathLib.to_str (PathLib.mkPath false (reverse ["b"; "a"]))) with "a/b".
    unfold FS.os_mkdir at 1. rewrite Rab0.
    rewrite mkdir_parents_unfold. cbv zeta.
    change (PathLib.to_str (PathLib.mkPath false (reverse ["a"]))) with "a".
    unfold FS.os_mkdir at 1. rewrite Ra0, Ha. fold st1.
    unfold PathLib.mkdir_one.
    change (PathLib.to_str (PathLib.mkPath false (reverse ["b"; "a"]))) with "a/b".
    unfold FS.os_mkdir. rewrite (Rab st1) by done. rewrite H1b. fold st2.
    unfold FS.write_file.
    change (PathLib.to_str (PathLib.mkPath false ["a"; "b"; "c.txt"])) with "a/b/c.txt".
    rewrite (Rabc st2) by done. rewrite H2c. done. }
  split; [done|]. split; [done|].
  split. { unfold FS.is_dir. by rewrite Ra3, H3a. }
  split. { unfold FS.is_dir. rewrite (Rab st3) by done. by rewrite H3b. }
  unfold read_local_file, FS.read_file. rewrite (Rabc st3) by done. by rewrite H3c.
Qed.

Lemma home_dir_wf : FS.wf home_dir.
Proof.
  intros loc n Hn _. simpl in Hn.
  apply lookup_singleton_Some in Hn as [<- _]. reflexivity.
Qed.

Lemma create_file_makes_parents_witness :
  ∃ st',
    create_file home_dir "a/b/c.txt" "hello"
      = (st', inr "✓ Created/updated file at 'a/b/c.txt'")
    ∧ FS.is_dir st' "a" = true
    ∧ FS.is_dir st' "a/b" = true
    ∧ read_local_file st' "a/b/c.txt" = inr "hello".
Proof.
  destruct (create_file_makes_parents home_dir "hello" home_dir_wf eq_refl eq_refl)
    as (st' & Hc & _ & _ & Ha & Hb & Hr).
  exists st'. repeat split; assumption.
Defined.

(** C9.  When the balance request fails (the request raises, the status
    is an error status, or the body is not a JSON object), [get_api_balance]
    returns [0.0] and writes one line to the log; no exception leaves it. *)
Theorem failed_balance_request_gives_zero {float : Type} (zero : float)
    (py_float : Json.value → exn + float) (exn_text : exn → string) outcome :
  request_failed outcome = true →
  ∃ entry, get_api_balance zero py_float exn_text outcome = (zero, [entry]).
Proof.
  destruct outcome as [reason|status_code body]; simpl; [eauto|].
  destruct (is_error_status status_code); simpl; [eauto|].
  destruct (Json.loads body) as [[]|]; simpl; try done; eauto.
Qed.

Lemma failed_balance_request_gives_zero_witness :
  ∃ entry,
    get_api_balance 0%Z (λ _, inr 1%Z) plain_text
      (Response 500 "Internal Server Error") = (0%Z, [entry]).
Proof.
  apply (failed_balance_request_gives_zero 0%Z (λ _, inr 1%Z) plain_text
           (Response 500 "Internal Server Error")).
  reflexivity.
Defined.

(** The balance is never taken from a failed request, while a good body
    is read. *)
Example balance_examples :
  let bal v := match v with Json.JInt z => inr z | _ => inl (ValueError v) end in
  (get_api_balance 0%Z bal plain_text (Response 200 "{")).1 = 0%Z
  ∧ (get_api_balance 0%Z bal plain_text (Raised "timeout")).1 = 0%Z
  ∧ (get_api_balance 0%Z bal plain_text (Response 200 "[1]")).1 = 0%Z
  ∧ get_api_balance 0%Z bal plain_text (Response 200 "{}") = (0%Z, []).
Proof. vm_compute. done. Qed.

(** *** Normalization of the operation lists *)

Lemma normalize_ops_items {A} (validate : Json.value → exn + A) key d items :
  normalized_items (Json.dict_get d key) = Some items →
  normalize_ops validate key d = convert_items validate items.
Proof.
  unfold normalize_ops, normalized_items.
  destruct (Json.dict_get d key) as [[| | | | |l|[|kv o]]|]; try done;
    intros [= <-]; try done.
  by destruct l.
Qed.

Lemma convert_items_models {A} (validate : Json.value → exn + A) items ms :
  (∀ item m, validate item = inr m → is_dict item = true) →
  Forall2 (λ item m, validate item = inr m) items ms →
  convert_items validate items = inr (inr <$> ms).
Proof.
  intros Hdict. induction 1 as [|item m items ms Hm _ IH]; [done|].
  rewrite fmap_cons. cbn [convert_items]. by rewrite (Hdict _ _ Hm), Hm, IH.
Qed.

Lemma all_models_inr {A} (ms : list A) :
  all_models (A := A) (inr <$> ms) = Some ms.
Proof.
  induction ms as [|m ms IH]; [done|].
  rewrite fmap_cons. cbn [all_models]. by rewrite IH.
Qed.

Lemma FileToCreate_valid_dict item m :
  FileToCreate.validate item = inr m → is_dict item = true.
Proof. by destruct item. Qed.

Lemma FileToEdit_valid_dict item m :
  FileToEdit.validate item = inr m → is_dict item = true.
Proof. by destruct item. Qed.

(** C10, as stated, fails on the empty object: it is falsy, so it is
    replaced by the empty list and the response is handled without error,
    whereas the one-element list that wraps it does not validate. *)
Lemma empty_object_not_wrapped :
  Json.loads reply_with_empty_object
    = Some (Json.JObj [("assistant_reply", Json.JStr "hi");
                       ("files_to_create", Json.JObj [])])
  ∧ normalize_ops FileToCreate.validate "files_to_create"
      [("assistant_reply", Json.JStr "hi"); ("files_to_create", Json.JObj [])]
    = inr []
  ∧ convert_items FileToCreate.validate [Json.JObj []]
    = inl (ValidationError "FileToCreate" (Json.JObj []))
  ∧ message_widgets
      (handle_assistant_response plain_text (fresh_window home_dir)
         reply_with_empty_object)
    = [mkBubble "hi" false false].
Proof. vm_compute. done. Qed.

(** C10, amended.  Before validation the handler normalizes both lists: a
    single object that is not empty is wrapped into a one-element list; a
    missing key, [null] and the empty object give the empty list; a list is
    taken as it is.  When the items validate, the executor runs on the
    normalized lists. *)
Theorem handler_runs_on_normalized_lists exn_text g response_text d reply
    citems eitems cs es :
  Json.loads response_text = Some (Json.JObj d) →
  Json.dict_get d "assistant_reply" = Some (Json.JStr reply) →
  normalized_items (Json.dict_get d "files_to_create") = Some citems →
  normalized_items (Json.dict_get d "files_to_edit") = Some eitems →
  Forall2 (λ item m, FileToCreate.validate item = inr m) citems cs →
  Forall2 (λ item m, FileToEdit.validate item = inr m) eitems es →
  normalize_ops FileToCreate.validate "files_to_create" d = inr (inr <$> cs)
  ∧ normalize_ops FileToEdit.validate "files_to_edit" d = inr (inr <$> es)
  ∧ handle_assistant_response exn_text g response_text
    = execute exn_text (note_loads (note_handled g response_text))
        (AssistantResponse.mk reply cs es).
Proof.
  intros Hloads Hreply Hc He Hcs Hes.
  assert (Hnc : normalize_ops FileToCreate.validate "files_to_create" d
                = inr (inr <$> cs)).
  { rewrite (normalize_ops_items _ _ _ _ Hc).
    by apply convert_items_models; [apply FileToCreate_valid_dict|]. }
  assert (Hne : normalize_ops FileToEdit.validate "files_to_edit" d
                = inr (inr <$> es)).
  { rewrite (normalize_ops_items _ _ _ _ He).
    by apply convert_items_models; [apply FileToEdit_valid_dict|]. }
  repeat split; [done..|].
  unfold handle_assistant_response. rewrite Hloads.
  unfold build_response. by rewrite Hnc, Hne, Hreply, !all_models_inr.
Qed.

Lemma handler_runs_on_normalized_lists_witness :
  handle_assistant_response plain_text (fresh_window home_dir)
    reply_with_single_object
  = execute plain_text
      (note_loads (note_handled (fresh_window home_dir) reply_with_single_object))
      (AssistantResponse.mk "done" [FileToCreate.mk "x.py" "print(1)"] []).
Proof.
  apply (handler_runs_on_normalized_lists plain_text (fresh_window home_dir)
           reply_with_single_object
           [("assistant_reply", Json.JStr "done");
            ("files_to_create",
             Json.JObj [("path", Json.JStr "x.py");
                        ("content", Json.JStr "print(1)")])]
           "done"
           [Json.JObj [("path", Json.JStr "x.py");
                       ("content", Json.JStr "print(1)")]]
           [] [FileToCreate.mk "x.py" "print(1)"] []).
  - vm_compute. reflexivity.
  - reflexivity.
  - reflexivity.
  - reflexivity.
  - repeat constructor.
  - constructor.
Defined.

(** The scenario of the specification: one reply, one file, one report. *)
Example scenario_done :
  let g := handle_assistant_response plain_text (fresh_window home_dir)
             reply_scenario in
  message_widgets g
    = [mkBubble "done" false false; mkBubble "✓ Created file: x.py" false false]
  ∧ read_local_file (fs g) "x.py" = inr "print(1)"
  ∧ log g = [].
Proof. vm_compute. done. Qed.

(** ** Further properties of the file helpers *)










(** X3.  An edit of a file that does not exist raises nothing and changes
    nothing: [apply_diff_edit] returns the "File not found" line, and the edit
    loop, which tests the returned line for truth only, shows the success line
    "Updated file". *)
Theorem edit_missing_file_shows_success exn_text g file :
  read_local_file (fs g) (FileToEdit.path file)
    = inl (OSError FS.ENOENT (FileToEdit.path file)) →
  apply_diff_edit (fs g) (FileToEdit.path file)
      (FileToEdit.original_snippet file) (FileToEdit.new_snippet file)
    = (fs g, inr ("✗ File not found for diff editing: '"
                  +:+ FileToEdit.path file +:+ "'"))
  ∧ edit_one exn_text g file
    = append_to_conversation g ("✓ Updated file: " +:+ FileToEdit.path file).
Proof.
  intros Hread.
  assert (Hedit : apply_diff_edit (fs g) (FileToEdit.path file)
            (FileToEdit.original_snippet file) (FileToEdit.new_snippet file)
          = (fs g, inr ("✗ File not found for diff editing: '"
                        +:+ FileToEdit.path file +:+ "'"))).
  { unfold apply_diff_edit. by rewrite Hread. }
  split; [done|]. unfold edit_one. rewrite Hedit.
  change (PyStr.truthy (?a +:+ ?b)) with true. cbv iota.
  by rewrite with_fs_same.
Qed.

Lemma edit_missing_file_shows_success_witness :
  edit_one plain_text (fresh_window home_dir)
    (FileToEdit.mk "nowhere.txt" "a" "b")
  = append_to_conversation (fresh_window home_dir) "✓ Updated file: nowhere.txt".
Proof.
  apply (edit_missing_file_shows_success plain_text (fresh_window home_dir)
           (FileToEdit.mk "nowhere.txt" "a" "b")).
  reflexivity.
Defined.

(** X4.  When the parent of the path is an existing regular file,
    [create_file] raises [FileExistsError] about the parent and changes
    nothing. *)
Theorem create_file_below_file st path content text :
  read_local_file st (PathLib.to_str (PathLib.parent (PathLib.of_str path)))
    = inr text →
  create_file st path content
  = (st, inl (OSError FS.EEXIST
                (PathLib.to_str (PathLib.parent (PathLib.of_str path))))).
Proof.
  intros Hread. destruct (read_local_file_inv _ _ _ Hread) as (loc & Hres & Hkind).
  unfold create_file, PathLib.mkdir. rewrite mkdir_parents_unfold.
  rewrite reverse_involutive.
  destruct (PathLib.parent (PathLib.of_str path)) as [anch parts]. simpl in *.
  unfold FS.os_mkdir, FS.is_dir. by rewrite Hres, Hkind.
Qed.

Lemma create_file_below_file_witness :
  create_file (one_file "notes" "x") "notes/a.txt" "hello"
  = (one_file "notes" "x", inl (OSError FS.EEXIST "notes")).
Proof.
  apply (create_file_below_file (one_file "notes" "x") "notes/a.txt" "hello" "x").
  reflexivity.
Defined.




(** ** Rejected responses *)

Lemma rejected_response_effect exn_text g response_text :
  accepted_response response_text = None →
  ∃ msg line,
    handle_assistant_response exn_text g response_text
    = mkGui (fs g)
        (message_widgets g ++ [mkBubble ("❌ " +:+ msg) false false])
        (log g ++ [line])
        (handled g ++ [response_text])
        (S (loads_calls g)).
Proof.
  unfold accepted_response, handle_assistant_response.
  destruct (Json.loads response_text) as [data|]; [|by eexists _, _].
  destruct (build_response data) as [e|]; [|done]. by eexists _, _.
Qed.

(** X8.  A response that does not parse or does not validate performs no
    file operation: the handler adds one error bubble and one log line, and
    the file system is untouched. *)
Theorem rejected_response_touches_no_file exn_text g response_text :
  accepted_response response_text = None →
  ∃ msg line,
    handle_assistant_response exn_text g response_text
    = mkGui (fs g)
        (message_widgets g ++ [mkBubble ("❌ " +:+ msg) false false])
        (log g ++ [line])
        (handled g ++ [response_text])
        (S (loads_calls g)).
Proof. apply rejected_response_effect. Qed.

Lemma rejected_response_touches_no_file_witness :
  ∃ msg line,
    handle_assistant_response plain_text (fresh_window home_dir) "[1, 2]"
    = mkGui home_dir [mkBubble ("❌ " +:+ msg) false false] [line] ["[1, 2]"] 1.
Proof.
  apply (rejected_response_touches_no_file plain_text (fresh_window home_dir) "[1, 2]").
  vm_compute. reflexivity.
Defined.

Lemma convert_items_invalid {A} (validate : Json.value → exn + A) items :
  Exists (λ item, ∀ m, validate item ≠ inr m) items →
  match convert_items validate items with
  | inl _ => True
  | inr ms => all_models ms = None
  end.
Proof.
  induction items as [|item items IH]; intros Hbad; [by apply Exists_nil in Hbad|].
  cbn [convert_items]. destruct (is_dict item).
  - destruct (validate item) as [e|m] eqn:Hv; [done|].
    apply Exists_cons in Hbad as [Hbad|Hbad]; [by destruct (Hbad m)|].
    specialize (IH Hbad). destruct (convert_items validate items); [done|].
    cbn [all_models]. by rewrite IH.
  - destruct (convert_items validate items); done.
Qed.

(** X9.  Validation is all or nothing: when [files_to_create] is a list with
    one item that does not validate, the response is rejected as a whole and
    no file is created, not even for the valid items before it. *)
Theorem invalid_creation_item_rejects_response exn_text g response_text d items :
  Json.loads response_text = Some (Json.JObj d) →
  Json.dict_get d "files_to_create" = Some (Json.JArr items) →
  Exists (λ item, ∀ m, FileToCreate.validate item ≠ inr m) items →
  accepted_response response_text = None
  ∧ fs (handle_assistant_response exn_text g response_text) = fs g.
Proof.
  intros Hloads Hget Hbad.
  assert (Hrej : accepted_response response_text = None).
  { unfold accepted_response. rewrite Hloads. unfold build_response, normalize_ops.
    rewrite Hget.
    assert (py_truthy (Json.JArr items) = true) as ->.
    { destruct items; [by apply Exists_nil in Hbad | done]. }
    cbn [is_dict iterate].
    pose proof (convert_items_invalid FileToCreate.validate items Hbad) as Hc.
    destruct (convert_items FileToCreate.validate items) as [|cs]; [done|].
    rewrite Hc. by repeat case_match. }
  split; [done|].
  destruct (rejected_response_effect exn_text g _ Hrej) as (? & ? & ->).
  done.
Qed.

Lemma invalid_creation_item_rejects_response_witness :
  fs (handle_assistant_response plain_text (fresh_window home_dir)
        ("{" +:+ PyStr.q "assistant_reply" +:+ ":" +:+ PyStr.q "ok" +:+ ","
         +:+ PyStr.q "files_to_create" +:+ ":[{" +:+ PyStr.q "path" +:+ ":"
         +:+ PyStr.q "a.txt" +:+ "," +:+ PyStr.q "content" +:+ ":"
         +:+ PyStr.q "A" +:+ "},{" +:+ PyStr.q "path" +:+ ":"
         +:+ PyStr.q "b.txt" +:+ "}]}"))
  = home_dir.
Proof.
  refine (proj2 (invalid_creation_item_rejects_response plain_text
            (fresh_window home_dir) _
            [("assistant_reply", Json.JStr "ok");
             ("files_to_create",
              Json.JArr [Json.JObj [("path", Json.JStr "a.txt");
                                    ("content", Json.JStr "A")];
                         Json.JObj [("path", Json.JStr "b.txt")]])]
            [Json.JObj [("path", Json.JStr "a.txt"); ("content", Json.JStr "A")];
             Json.JObj [("path", Json.JStr "b.txt")]]
            _ _ _)).
  - vm_compute. reflexivity.
  - reflexivity.
  - apply Exists_cons_tl, Exists_cons_hd. intros m. discriminate.
Defined.

(** ** The file tree stays well-formed *)

Lemma walk_last st cur comps loc :
  comps ≠ [] → FS.walk st cur comps = inr loc →
  ∃ mid c, FS.kind st mid = Some FS.Dir ∧ FS.step st mid c = inr loc.
Proof.
  destruct comps as [|c comps _] using rev_ind; [done|]. intros _.
  rewrite walk_app. destruct (FS.walk st cur comps) as [|mid]; [done|].
  simpl. destruct (FS.step st mid c) as [|loc'] eqn:Hstep; [done|].
  intros [= <-]. exists mid, c. split; [by eapply step_inv | done].
Qed.

Lemma resolve_last st path loc :
  FS.resolve st path = inr loc →
  ∃ mid c, FS.kind st mid = Some FS.Dir ∧ FS.step st mid c = inr loc.
Proof.
  unfold FS.resolve. destruct path; [done|]. apply walk_last, split_not_nil.
Qed.

Lemma wf_parent_dir st loc :
  FS.wf st → loc ≠ [] → is_Some (FS.kind st loc) →
  FS.kind st (removelast loc) = Some FS.Dir.
Proof.
  intros Hwf Hne [n Hn]. apply (Hwf loc n); [|done]. by destruct loc.
Qed.

(** Where a new node can be put: below an existing directory. *)
Lemma resolve_slot st path loc :
  FS.wf st → FS.resolve st path = inr loc → FS.kind st loc ≠ Some FS.Dir →
  loc ≠ [] ∧ FS.kind st (removelast loc) = Some FS.Dir.
Proof.
  intros Hwf Hres Hkind.
  assert (Hne : loc ≠ []) by (by intros ->).
  split; [done|].
  destruct (resolve_last _ _ _ Hres) as (mid & c & Hmid & Hstep).
  unfold FS.step in Hstep. rewrite Hmid in Hstep.
  destruct (decide (c = "" ∨ c = ".")) as [_|_].
  { injection Hstep as <-. congruence. }
  destruct (decide (c = "..")) as [_|_]; injection Hstep as <-.
  - destruct Hkind. apply wf_parent_dir; [done| |by rewrite Hmid].
    intros ->. by apply Hne.
  - by rewrite removelast_snoc.
Qed.

Lemma removelast_ne {A} (l : list A) : l ≠ [] → removelast l ≠ l.
Proof.
  destruct l as [|x l _] using rev_ind; [done|]. intros _.
  rewrite removelast_snoc. apply snoc_ne_self.
Qed.

Lemma wf_set_node st loc n :
  FS.wf st → loc ≠ [] → FS.kind st (removelast loc) = Some FS.Dir →
  FS.kind st loc ≠ Some FS.Dir →
  FS.wf (FS.set_node st loc n).
Proof.
  intros Hwf Hne Hparent Hkind loc' n' Hn' Hne'. simpl in Hn'.
  destruct (decide (loc' = loc)) as [->|Hneq].
  - rewrite kind_set_node_ne; [done | by apply removelast_ne].
  - rewrite lookup_insert_ne in Hn' by done.
    rewrite kind_set_node_ne; [by eapply Hwf|].
    intros Heq. apply Hkind. rewrite <- Heq. by eapply Hwf.
Qed.

Lemma os_mkdir_wf st path st' :
  FS.wf st → FS.os_mkdir st path = inr st' → FS.wf st'.
Proof.
  intros Hwf. unfold FS.os_mkdir.
  destruct (FS.resolve st path) as [|loc] eqn:Hres; [done|].
  destruct (FS.kind st loc) eqn:Hkind; [done|]. intros [= <-].
  destruct (resolve_slot st path loc) as [??]; [done|done|by rewrite Hkind|].
  apply wf_set_node; [done..|by rewrite Hkind].
Qed.

Lemma mkdir_one_wf st p st' :
  FS.wf st → PathLib.mkdir_one st p = inr st' → FS.wf st'.
Proof.
  intros Hwf. unfold PathLib.mkdir_one.
  destruct (FS.os_mkdir st _) as [e|st1] eqn:Hmk.
  - destruct e; [done|..]; destruct (FS.is_dir st (PathLib.to_str p));
      (intros [= <-] || intros [=]); done.
  - intros [= <-]. by eapply os_mkdir_wf.
Qed.

Lemma mkdir_parents_wf st anch rparts :
  FS.wf st → FS.wf (PathLib.mkdir_parents st anch rparts).1.
Proof.
  intros Hwf. induction rparts as [|x rparts IH]; rewrite mkdir_parents_unfold; simpl.
  - destruct (FS.os_mkdir st _) as [e|st'] eqn:Hmk.
    + destruct e; simpl; repeat case_match; exact Hwf.
    + by eapply os_mkdir_wf.
  - destruct (FS.os_mkdir st _) as [e|st'] eqn:Hmk.
    2:{ eapply os_mkdir_wf; [exact Hwf | exact Hmk]. }
    destruct e; simpl; try (repeat case_match; exact Hwf).
    destruct (PathLib.mkdir_parents st anch rparts) as [st1 [e|]]; [exact IH|].
    simpl in IH. destruct (PathLib.mkdir_one st1 _) as [|st2] eqn:Hone; [exact IH|].
    simpl. by eapply mkdir_one_wf.
Qed.

Lemma write_file_wf st path text st' :
  FS.wf st → FS.write_file st path text = inr st' → FS.wf st'.
Proof.
  intros Hwf. unfold FS.write_file.
  destruct (FS.resolve st path) as [|loc] eqn:Hres; [done|].
  destruct (FS.kind st loc) as [[t|]|] eqn:Hkind; [|done|]; intros [= <-].
  - destruct (resolve_slot st path loc) as [??]; [done|done|by rewrite Hkind|].
    apply wf_set_node; [done..|by rewrite Hkind].
  - destruct (resolve_slot st path loc) as [??]; [done|done|by rewrite Hkind|].
    apply wf_set_node; [done..|by rewrite Hkind].
Qed.

Lemma create_file_wf st path text :
  FS.wf st → FS.wf (create_file st path text).1.
Proof.
  intros Hwf. unfold create_file.
  pose proof (mkdir_parents_wf st
                (PathLib.anchored (PathLib.parent (PathLib.of_str path)))
                (reverse (PathLib.parts (PathLib.parent (PathLib.of_str path))))
                Hwf) as Hmk.
  unfold PathLib.mkdir.
  destruct (PathLib.mkdir_parents _ _ _) as [st1 [e|]]; [exact Hmk|]. simpl in Hmk.
  destruct (FS.write_file st1 _ text) as [|st2] eqn:Hw; [exact Hmk|].
  simpl. by eapply write_file_wf.
Qed.

Lemma apply_diff_edit_wf st path original new :
  FS.wf st → FS.wf (apply_diff_edit st path original new).1.
Proof.
  intros Hwf. unfold apply_diff_edit.
  destruct (read_local_file st path); [exact Hwf|].
  destruct (PyStr.contains _ _); [|exact Hwf].
  pose proof (create_file_wf st path (PyStr.replace_first original new s) Hwf) as Hc.
  destruct (create_file _ _ _) as [st1 [|]]; exact Hc.
Qed.

Section WellFormed.
Context (exn_text : exn → string).

Lemma create_one_wf g file :
  FS.wf (fs g) → FS.wf (fs (create_one exn_text g file)).
Proof.
  intros Hwf. unfold create_one.
  pose proof (create_file_wf (fs g) (creation_path (fs g) (FileToCreate.path file))
                (FileToCreate.content file) Hwf) as Hc.
  destruct (create_file _ _ _) as [st [|]]; exact Hc.
Qed.

Lemma edit_one_wf g file :
  FS.wf (fs g) → FS.wf (fs (edit_one exn_text g file)).
Proof.
  intros Hwf. unfold edit_one.
  pose proof (apply_diff_edit_wf (fs g) (FileToEdit.path file)
                (FileToEdit.original_snippet file) (FileToEdit.new_snippet file)
                Hwf) as Hc.
  destruct (apply_diff_edit _ _ _ _) as [st [|msg]]; [exact Hc|].
  destruct (PyStr.truthy msg); exact Hc.
Qed.

Lemma foldl_wf {A} (f : gui → A → gui) (l : list A) g :
  (∀ g x, FS.wf (fs g) → FS.wf (fs (f g x))) →
  FS.wf (fs g) → FS.wf (fs (foldl f g l)).
Proof.
  intros Hf. revert g. induction l as [|x l IH]; intros g Hwf; [exact Hwf|].
  simpl. by apply IH, Hf.
Qed.

(** X10.  The handler keeps the file tree well-formed: whatever the
    response text, every node still lies in a directory afterwards. *)
Theorem handler_keeps_tree_well_formed g response_text :
  FS.wf (fs g) →
  FS.wf (fs (handle_assistant_response exn_text g response_text)).
Proof.
  intros Hwf. unfold handle_assistant_response.
  destruct (Json.loads response_text) as [data|]; [|exact Hwf].
  destruct (build_response data) as [|response]; [exact Hwf|].
  unfold execute. apply foldl_wf; [apply edit_one_wf|].
  apply foldl_wf; [apply create_one_wf|]. exact Hwf.
Qed.

End WellFormed.

Lemma handler_keeps_tree_well_formed_witness :
  FS.wf (fs (handle_assistant_response plain_text (fresh_window home_dir)
               reply_scenario)).
Proof.
  apply (handler_keeps_tree_well_formed plain_text (fresh_window home_dir)
           reply_scenario).
  exact home_dir_wf.
Defined.

(** ** Further properties of the streaming loop *)

Lemma concat_app (l1 l2 : list string) :
  PyStr.concat (l1 ++ l2) = PyStr.concat l1 +:+ PyStr.concat l2.
Proof.
  induction l1 as [|t l1 IH]; [done|].
  change (PyStr.concat ((t :: l1) ++ l2)) with (t +:+ PyStr.concat (l1 ++ l2)).
  change (PyStr.concat (t :: l1)) with (t +:+ PyStr.concat l1).
  by rewrite IH, append_assoc.
Qed.

Lemma concat_singleton (t : string) : PyStr.concat [t] = t.
Proof. apply append_nil_r. Qed.

Section Loop.
Context (exn_text : exn → string).

Lemma on_token_handled g l token :
  ∃ new, handled (on_token exn_text g l token).1 = handled g ++ new
         ∧ Forall (λ t, is_Some (Json.loads t)) new.
Proof.
  unfold on_token. simpl.
  destruct (negb (json_started l) && opens_json token); simpl.
  { exists []. by rewrite app_nil_r. }
  destruct (json_started l); simpl.
  - destruct (Json.loads (json_content l +:+ token)) as [v|] eqn:Hv; simpl.
    + exists [json_content l +:+ token]. split; [by rewrite handled_handle|].
      constructor; [by rewrite Hv | constructor].
    + exists []. by rewrite app_nil_r.
  - exists []. rewrite app_nil_r. split; [|constructor].
    apply show_token_frame.
Qed.

(** X11.  Inside the loop the handler is called only on buffers that
    [json.loads] accepts; only the call after the loop can receive a text that
    does not parse. *)
Theorem loop_handles_only_complete_json s chunks :
  ∃ new,
    handled (foldl (on_chunk exn_text) s chunks).1 = handled s.1 ++ new
    ∧ Forall (λ t, is_Some (Json.loads t)) new.
Proof.
  induction chunks as [|chunk chunks IH] using rev_ind.
  - exists []. by rewrite app_nil_r.
  - destruct IH as (new & Hnew & Hall). rewrite foldl_snoc.
    destruct chunk as [token|]; simpl; [|by exists new].
    destruct (on_token_handled (foldl (on_chunk exn_text) s chunks).1
                (foldl (on_chunk exn_text) s chunks).2 token) as (new' & -> & Hall').
    exists (new ++ new'). rewrite Hnew, <- app_assoc. split; [done|].
    by apply Forall_app.
Qed.


(** The locals [collected_chunks] and [content] record every token. *)
Lemma on_chunk_records s chunk :
  collected_chunks (on_chunk exn_text s chunk).2
    = collected_chunks s.2 ++ omap id [chunk]
  ∧ content (on_chunk exn_text s chunk).2
    = content s.2 +:+ PyStr.concat (omap id [chunk]).
Proof.
  destruct s as [g l], chunk as [token|]; simpl.
  2:{ by rewrite app_nil_r, append_nil_r. }
  rewrite ?concat_singleton, ?append_nil_r. unfold on_token. simpl.
  destruct (negb (json_started l) && opens_json token); [done|].
  destruct (json_started l); [by destruct (Json.loads _)|].
  unfold show_token. by repeat case_match; simplify_eq.
Qed.

(** X13.  The locals [collected_chunks] and [content] record every content
    token, in order, whether it was shown as text or buffered as JSON. *)
Theorem stream_records_every_token g chunks :
  collected_chunks (foldl (on_chunk exn_text) (g, initial_locals) chunks).2
    = omap id chunks
  ∧ content (foldl (on_chunk exn_text) (g, initial_locals) chunks).2
    = PyStr.concat (omap id chunks).
Proof.
  induction chunks as [|chunk chunks [IHc IHt]] using rev_ind; [done|].
  rewrite foldl_snoc, omap_app.
  destruct (on_chunk_records (foldl (on_chunk exn_text) (g, initial_locals) chunks)
              chunk) as [-> ->].
  by rewrite IHc, IHt, concat_app.
Qed.

End Loop.


(** ** [_process_completion] *)

Lemma completion_step_response s c :
  response_text (completion_step s c).2
    = response_text s.2 +:+ PyStr.concat (omap delta_content [c])
  ∧ handled (completion_step s c).1 = handled s.1
  ∧ loads_calls (completion_step s c).1 = loads_calls s.1
  ∧ fs (completion_step s c).1 = fs s.1
  ∧ log (completion_step s c).1 = log s.1.
Proof.
  destruct s as [g l], c as [[r|] [d|]]; unfold completion_step; simpl;
    try destruct (PyStr.truthy r) eqn:Hr;
    try destruct (reasoning_bubble l);
    simpl; try destruct (PyStr.truthy d) eqn:Hd; simpl;
    rewrite ?append_nil_r; repeat split; try done.
  all: destruct d; [by rewrite ?append_nil_r | done].
Qed.

Lemma completion_loop_response s chunks :
  response_text (foldl completion_step s chunks).2
    = response_text s.2 +:+ PyStr.concat (omap delta_content chunks)
  ∧ handled (foldl completion_step s chunks).1 = handled s.1
  ∧ loads_calls (foldl completion_step s chunks).1 = loads_calls s.1
  ∧ fs (foldl completion_step s chunks).1 = fs s.1
  ∧ log (foldl completion_step s chunks).1 = log s.1.
Proof.
  induction chunks as [|c chunks (IH1 & IH2 & IH3 & IH4 & IH5)] using rev_ind.
  { simpl. by rewrite append_nil_r. }
  rewrite foldl_snoc, omap_app, concat_app.
  destruct (completion_step_response (foldl completion_step s chunks) c)
    as (-> & -> & -> & -> & ->).
  by rewrite IH1, append_assoc.
Qed.

Lemma completion_handled exn_text g chunks :
  handled (process_completion exn_text g chunks)
  = handled g
    ++ (if PyStr.truthy (PyStr.concat (omap delta_content chunks))
        then [PyStr.concat (omap delta_content chunks)] else [])
  ∧ loads_calls (process_completion exn_text g chunks)
    = loads_calls g
      + (if PyStr.truthy (PyStr.concat (omap delta_content chunks)) then 1 else 0).
Proof.
  unfold process_completion.
  destruct (completion_loop_response (g, mkCompletion "" "" None) chunks)
    as (Hr & Hh & Hn & _).
  destruct (foldl completion_step _ chunks) as [g' l']. simpl in *.
  rewrite Hr. destruct (PyStr.truthy _).
  - rewrite handled_handle, loads_calls_handle, Hh, Hn. split; [done | lia].
  - rewrite Hh, Hn, app_nil_r. split; [done | lia].
Qed.

(** X14.  [_process_completion] calls the handler at most once: exactly when
    the concatenation of the content tokens is not empty, and then on that
    concatenation, which is parsed once. *)
Theorem completion_hands_over_whole_answer exn_text g chunks :
  handled (process_completion exn_text g chunks)
  = handled g
    ++ (if PyStr.truthy (PyStr.concat (omap delta_content chunks))
        then [PyStr.concat (omap delta_content chunks)] else [])
  ∧ loads_calls (process_completion exn_text g chunks)
    = loads_calls g
      + (if PyStr.truthy (PyStr.concat (omap delta_content chunks)) then 1 else 0).
Proof. apply completion_handled. Qed.

(** X15.  On a stream whose tokens concatenate to the text [reply_x], the two
    stream handlers make the same handler calls. *)
Theorem completion_handles_reply_x exn_text g tokens :
  PyStr.concat tokens = reply_x →
  handled (process_completion exn_text g (mkChunk None ∘ Some <$> tokens))
  = handled (process_stream exn_text g (Some <$> tokens)).
Proof.
  intros Hcat.
  assert (handled (process_stream exn_text g (Some <$> tokens))
          = handled g ++ [reply_x]) as ->.
  { by apply stream_outside. }
  destruct (completion_handled exn_text g
              (mkChunk None ∘ Some <$> tokens)) as [-> _].
  assert (omap delta_content (mkChunk None ∘ Some <$> tokens) = tokens) as ->.
  { clear. induction tokens as [|t tokens IH]; [done|].
    rewrite fmap_cons. simpl. f_equal. exact IH. }
  by rewrite Hcat.
Qed.

Lemma completion_handles_reply_x_witness :
  handled (process_completion plain_text (fresh_window home_dir)
             (mkChunk None ∘ Some <$> ["{"; PyStr.drop 1 reply_x]))
  = handled (process_stream plain_text (fresh_window home_dir)
               (Some <$> ["{"; PyStr.drop 1 reply_x])).
Proof.
  apply (completion_handles_reply_x plain_text (fresh_window home_dir)
           ["{"; PyStr.drop 1 reply_x]).
  vm_compute. reflexivity.
Defined.

(** The reasoning bubble is made once, for the first non-empty reasoning
    token, and shows all the reasoning text received. *)
Lemma completion_step_reasoning widgets s c :
  reasoning_shown widgets s →
  reasoning_shown widgets (completion_step s c)
  ∧ reasoning_text (completion_step s c).2
    = reasoning_text s.2 +:+ PyStr.concat (omap reasoning_content [c]).
Proof.
  destruct s as [g l], c as [r d]. unfold reasoning_shown, completion_step. simpl.
  intros Hinv.
  assert (Hd : ∀ (g' : gui) (l' : completion_locals),
             (let '(g0, l0) := (g', l') in
              match d with
              | Some token =>
                if PyStr.truthy token
                then (g0, mkCompletion (reasoning_text l0)
                            (response_text l0 +:+ token) (reasoning_bubble l0))
                else (g0, l0)
              | None => (g0, l0)
              end)
             = (g', mkCompletion (reasoning_text l')
                      (response_text
                         (match d with
                          | Some token =>
                            if PyStr.truthy token
                            then mkCompletion (reasoning_text l')
                                   (response_text l' +:+ token) (reasoning_bubble l')
                            else l'
                          | None => l'
                          end))
                      (reasoning_bubble l'))).
  { intros g' [rt resp rb]. destruct d as [token|]; [|done].
    by destruct (PyStr.truthy token). }
  destruct r as [r|]; simpl.
  2:{ rewrite Hd. simpl. by rewrite append_nil_r. }
  rewrite append_nil_r. destruct (PyStr.truthy r) eqn:Hr.
  2:{ rewrite Hd. simpl. destruct r; [|done]. by rewrite append_nil_r. }
  destruct (reasoning_bubble l) as [i|] eqn:Hb.
  - destruct Hinv as (-> & Hne & Hw). rewrite Hd. simpl. split; [|done].
    split; [done|]. split; [by intros [? _]%append_eq_nil|].
    rewrite Hw. rewrite <- (Nat.add_0_r (length widgets)), alter_app_r. done.
  - destruct Hinv as (Ht & Hw). rewrite Hd. simpl. split; [|done].
    rewrite Hw. split; [done|]. split.
    { rewrite Ht, append_nil_l. by destruct r. }
    rewrite <- (Nat.add_0_r (length widgets)), alter_app_r. done.
Qed.

Lemma completion_loop_reasoning widgets s chunks :
  reasoning_shown widgets s →
  reasoning_shown widgets (foldl completion_step s chunks)
  ∧ reasoning_text (foldl completion_step s chunks).2
    = reasoning_text s.2 +:+ PyStr.concat (omap reasoning_content chunks).
Proof.
  intros Hinv. induction chunks as [|c chunks [IH1 IH2]] using rev_ind.
  { simpl. by rewrite append_nil_r. }
  rewrite foldl_snoc, omap_app, concat_app.
  destruct (completion_step_reasoning widgets (foldl completion_step s chunks) c IH1)
    as [H1 ->].
  split; [done|]. by rewrite IH2, append_assoc.
Qed.

(** X16.  [_process_completion] makes at most one reasoning bubble: after the
    loop the conversation is the one before, followed, when some reasoning
    text arrived, by a single reasoning bubble holding all of it. *)
Theorem completion_shows_reasoning_once g chunks :
  message_widgets (foldl completion_step (g, mkCompletion "" "" None) chunks).1
  = message_widgets g
    ++ (if PyStr.truthy (PyStr.concat (omap reasoning_content chunks))
        then [mkBubble (PyStr.concat (omap reasoning_content chunks)) false true]
        else []).
Proof.
  destruct (completion_loop_reasoning (message_widgets g)
              (g, mkCompletion "" "" None) chunks) as [Hinv Htext]; [done|].
  simpl in Htext. rewrite append_nil_l in Htext. rewrite <- Htext.
  unfold reasoning_shown in Hinv.
  destruct (reasoning_bubble _) as [i|].
  - destruct Hinv as (_ & Hne & ->).
    by destruct (reasoning_text _).
  - destruct Hinv as (-> & ->). by rewrite app_nil_r.
Qed.

(** ** The preview of a reasoning bubble *)

Lemma py_len_append (s t : string) : py_len (s +:+ t) = py_len s + py_len t.
Proof.
  induction s as [|c s IH]; [done|]. rewrite append_cons. simpl. rewrite IH. lia.
Qed.

Lemma py_len_take (n : nat) (s : string) : py_len (py_take n s) ≤ n.
Proof.
  revert n. induction s as [|c s IH]; intros n; simpl; [lia|].
  destruct (is_continuation c) eqn:Hc; simpl.
  - rewrite Hc. apply IH.
  - destruct n as [|n]; simpl; [lia|]. rewrite Hc. specialize (IH n). lia.
Qed.

Lemma atomic_cons_inv (sep c : ascii) (x : string) :
  PyStr.split sep (String c x) = [String c x] →
  Ascii.eqb c sep = false ∧ PyStr.split sep x = [x].
Proof.
  simpl. destruct (Ascii.eqb c sep); [done|].
  destruct (PyStr.split sep x) as [|piece pieces] eqn:Hs.
  { by destruct (split_not_nil sep x). }
  by intros [= -> ->].
Qed.

Lemma atomic_cons (sep c : ascii) (x : string) :
  Ascii.eqb c sep = false → PyStr.split sep x = [x] →
  PyStr.split sep (String c x) = [String c x].
Proof. intros Hc Hx. simpl. by rewrite Hc, Hx. Qed.

Lemma atomic_append (sep : ascii) (x y : string) :
  PyStr.split sep x = [x] → PyStr.split sep y = [y] →
  PyStr.split sep (x +:+ y) = [x +:+ y].
Proof.
  intros Hx Hy. induction x as [|c x IH]; [done|].
  apply atomic_cons_inv in Hx as [Hc Hx]. rewrite append_cons.
  by apply atomic_cons; [|apply IH].
Qed.

Lemma atomic_take (sep : ascii) (n : nat) (x : string) :
  PyStr.split sep x = [x] → PyStr.split sep (py_take n x) = [py_take n x].
Proof.
  revert n. induction x as [|c x IH]; intros n Hx; [done|].
  apply atomic_cons_inv in Hx as [Hc Hx]. simpl.
  destruct (is_continuation c); [by apply atomic_cons; [|apply IH]|].
  destruct n; [done|]. by apply atomic_cons; [|apply IH].
Qed.

Lemma first_line_atomic (text : string) :
  PyStr.split "010" (default "" (head (PyStr.split "010" text)))
  = [default "" (head (PyStr.split "010" text))].
Proof.
  destruct (PyStr.split "010" text) as [|line lines] eqn:Hs; [done|]. simpl.
  apply (split_pieces_atomic _ text). rewrite Hs. apply list_elem_of_here.
Qed.

(** X17.  The preview of a reasoning bubble is a single line of at most 103
    characters. *)
Theorem reasoning_preview_one_bounded_line text :
  py_len (reasoning_preview text) ≤ 103
  ∧ PyStr.split "010" (reasoning_preview text) = [reasoning_preview text].
Proof.
  unfold reasoning_preview.
  set (preview := if PyStr.truthy text
                  then default "" (head (PyStr.split "010" text)) else "").
  assert (Hatomic : PyStr.split "010" preview = [preview]).
  { unfold preview. destruct (PyStr.truthy text); [apply first_line_atomic | done]. }
  destruct (Nat.ltb 100 (py_len preview)) eqn:Hlong.
  - split.
    + rewrite py_len_append. pose proof (py_len_take 100 preview).
      change (py_len "...") with 3. lia.
    + apply atomic_append; [by apply atomic_take | done].
  - apply Nat.ltb_ge in Hlong.
    destruct (Nat.ltb 1 (length (PyStr.split "010" text))).
    + split; [rewrite py_len_append; change (py_len "...") with 3; lia|].
      by apply atomic_append.
    + split; [lia | done].
Qed.

(** X18.  A reasoning text that is one line of at most 100 characters is its
    own preview. *)
Theorem reasoning_preview_of_short_line text :
  PyStr.split "010" text = [text] → py_len text ≤ 100 →
  reasoning_preview text = text.
Proof.
  intros Hline Hlen. unfold reasoning_preview. rewrite Hline. simpl.
  assert ((if PyStr.truthy text then text else "") = text) as ->
    by (by destruct text).
  apply Nat.ltb_ge in Hlen. by rewrite Hlen.
Qed.

Lemma reasoning_preview_of_short_line_witness :
  reasoning_preview "Let me think." = "Let me think.".
Proof.
  apply (reasoning_preview_of_short_line "Let me think."); [reflexivity|].
  vm_compute. lia.
Defined.

Example reasoning_preview_examples :
  reasoning_preview (PyStr.join (String "010" "") ["first"; "second"]) = "first..."
  ∧ reasoning_preview "" = ""
  ∧ py_len (reasoning_preview (PyStr.concat (replicate 150 "é"))) = 103.
Proof. vm_compute. done. Qed.

(** ** The chat history table *)

Lemma insert_row_perm r rows : Database.insert_row r rows ≡ₚ r :: rows.
Proof.
  induction rows as [|r' rows IH]; simpl; [done|].
  destruct (String.ltb _ _); [done|]. rewrite IH. apply Permutation_swap.
Qed.

Lemma order_by_timestamp_snoc rows r :
  Database.order_by_timestamp (rows ++ [r])
  = Database.insert_row r (Database.order_by_timestamp rows).
Proof. unfold Database.order_by_timestamp. by rewrite foldl_snoc. Qed.

Lemma order_by_timestamp_perm rows : Database.order_by_timestamp rows ≡ₚ rows.
Proof.
  induction rows as [|r rows IH] using rev_ind; [done|].
  rewrite order_by_timestamp_snoc, insert_row_perm, IH.
  apply Permutation_cons_append.
Qed.

Lemma insert_row_last r rows :
  Forall (λ r', String.ltb (Database.timestamp r) (Database.timestamp r') = false)
         rows →
  Database.insert_row r rows = rows ++ [r].
Proof.
  induction 1 as [|r' rows Hr' _ IH]; simpl; [done|]. by rewrite Hr', IH.
Qed.

Lemma ltb_asym (s t : string) : String.ltb s t = true → String.ltb t s = false.
Proof.
  unfold String.ltb. rewrite (String.compare_antisym t s).
  by destruct (String.compare s t).
Qed.

Lemma filter_add table now role content cid reasoning cid' :
  filter (λ r, Database.conversation_id r = cid')
         (Database.add_chat_message table now role content cid reasoning)
  = filter (λ r, Database.conversation_id r = cid') table
    ++ (if decide (cid = cid')
        then [Database.mkRow (S (length table)) now role content cid reasoning]
        else []).
Proof.
  unfold Database.add_chat_message. rewrite filter_app. f_equal.
Qed.

(** X19.  After [add_chat_message], the history of that conversation is the
    former history plus the new message, up to order, and the history of every
    other conversation is unchanged. *)
Theorem chat_message_round_trip table now role content cid reasoning :
  Database.get_chat_history
    (Database.add_chat_message table now role content cid reasoning) cid
  ≡ₚ Database.mkMessage role content reasoning
     :: Database.get_chat_history table cid
  ∧ ∀ cid', cid' ≠ cid →
      Database.get_chat_history
        (Database.add_chat_message table now role content cid reasoning) cid'
      = Database.get_chat_history table cid'.
Proof.
  unfold Database.get_chat_history. split.
  - rewrite filter_add, decide_True by done.
    rewrite order_by_timestamp_snoc, insert_row_perm. rewrite fmap_cons. done.
  - intros cid' Hne. rewrite filter_add, decide_False by done.
    by rewrite app_nil_r.
Qed.

(** X20.  When the new message is later than every message of its
    conversation, it comes last in the history and the messages before it keep
    their order. *)
Theorem chat_history_appends_in_time_order table now role content cid reasoning :
  (∀ r, r ∈ table → Database.conversation_id r = cid →
        String.ltb (Database.timestamp r) now = true) →
  Database.get_chat_history
    (Database.add_chat_message table now role content cid reasoning) cid
  = Database.get_chat_history table cid
    ++ [Database.mkMessage role content reasoning].
Proof.
  intros Hlate. unfold Database.get_chat_history.
  rewrite filter_add, decide_True by done.
  rewrite order_by_timestamp_snoc, insert_row_last; [by rewrite fmap_app|].
  apply Forall_forall. intros r Hr. simpl. apply ltb_asym.
  rewrite order_by_timestamp_perm in Hr.
  apply list_elem_of_filter in Hr as [Hcid Hr]. by apply Hlate.
Qed.

Lemma chat_history_appends_in_time_order_witness :
  Database.get_chat_history
    (Database.add_chat_message
       [Database.mkRow 1 "2025-01-01T10:00:00" "user" "hi" "c1" false;
        Database.mkRow 2 "2025-01-01T09:00:00" "user" "other" "c2" false]
       "2025-01-01T10:00:05.250000" "assistant" "hello" "c1" true)
    "c1"
  = Database.get_chat_history
      [Database.mkRow 1 "2025-01-01T10:00:00" "user" "hi" "c1" false;
       Database.mkRow 2 "2025-01-01T09:00:00" "user" "other" "c2" false] "c1"
    ++ [Database.mkMessage "assistant" "hello" true].
Proof.
  apply (chat_history_appends_in_time_order
           [Database.mkRow 1 "2025-01-01T10:00:00" "user" "hi" "c1" false;
            Database.mkRow 2 "2025-01-01T09:00:00" "user" "other" "c2" false]
           "2025-01-01T10:00:05.250000" "assistant" "hello" "c1" true).
  intros r Hr Hcid.
  apply elem_of_cons in Hr as [->|Hr]; [reflexivity|].
  apply list_elem_of_singleton in Hr as ->. discriminate Hcid.
Defined.

(** ** Other files are left alone *)

Lemma fs_extends_refl st : fs_extends st st.
Proof. by split. Qed.

Lemma fs_extends_trans st1 st2 st3 :
  fs_extends st1 st2 → fs_extends st2 st3 → fs_extends st1 st3.
Proof. intros [H1 H1'] [H2 H2']. split; [congruence | eauto]. Qed.

Lemma walk_mono st st' cur comps l :
  (∀ l, FS.kind st l = Some FS.Dir → FS.kind st' l = Some FS.Dir) →
  FS.walk st cur comps = inr l → FS.walk st' cur comps = inr l.
Proof.
  intros Hdirs. revert cur. induction comps as [|c comps IH]; intros cur; simpl; [done|].
  destruct (FS.step st cur c) as [|cur'] eqn:Hstep; [done|]. intros Hw.
  pose proof (step_inv _ _ _ _ Hstep) as Hdir.
  rewrite (step_dir st st') by auto. rewrite Hstep. by apply IH.
Qed.

Lemma resolve_extends st st' path l :
  fs_extends st st' → FS.resolve st path = inr l → FS.resolve st' path = inr l.
Proof.
  intros [Hcwd Hk]. unfold FS.resolve. destruct path; [done|]. rewrite Hcwd.
  apply walk_mono. auto.
Qed.

Lemma read_extends st st' path text :
  fs_extends st st' → read_local_file st path = inr text →
  read_local_file st' path = inr text.
Proof.
  intros Hext Hread. destruct (read_local_file_inv _ _ _ Hread) as (loc & Hres & Hkind).
  unfold read_local_file, FS.read_file.
  rewrite (resolve_extends _ _ _ _ Hext Hres). by rewrite (proj2 Hext _ _ Hkind).
Qed.

Lemma os_mkdir_extends st path st' :
  FS.os_mkdir st path = inr st' → fs_extends st st'.
Proof.
  unfold FS.os_mkdir. destruct (FS.resolve st path) as [|loc]; [done|].
  destruct (FS.kind st loc) eqn:Hkind; [done|]. intros [= <-].
  split; [done|]. intros l n Hl. rewrite kind_set_node_ne; [done | congruence].
Qed.

Lemma mkdir_one_extends st p st' :
  PathLib.mkdir_one st p = inr st' → fs_extends st st'.
Proof.
  unfold PathLib.mkdir_one.
  destruct (FS.os_mkdir st _) as [e|st1] eqn:Hmk.
  - destruct e; [done|..]; destruct (FS.is_dir st (PathLib.to_str p));
      (intros [= <-] || intros [=]); apply fs_extends_refl.
  - intros [= <-]. by eapply os_mkdir_extends.
Qed.

Lemma mkdir_parents_extends st anch rparts :
  fs_extends st (PathLib.mkdir_parents st anch rparts).1.
Proof.
  induction rparts as [|x rparts IH]; rewrite mkdir_parents_unfold; simpl.
  - destruct (FS.os_mkdir st _) as [e|st'] eqn:Hmk.
    + destruct e; simpl; repeat case_match; apply fs_extends_refl.
    + eapply os_mkdir_extends, Hmk.
  - destruct (FS.os_mkdir st _) as [e|st'] eqn:Hmk.
    2:{ eapply os_mkdir_extends, Hmk. }
    destruct e; simpl; try (repeat case_match; apply fs_extends_refl).
    destruct (PathLib.mkdir_parents st anch rparts) as [st1 [e|]]; [exact IH|].
    simpl in IH. destruct (PathLib.mkdir_one st1 _) as [|st2] eqn:Hone; [exact IH|].
    simpl. eapply fs_extends_trans; [exact IH|]. by eapply mkdir_one_extends.
Qed.

(** X6.  [create_file] leaves every other file alone: a file that could be
    read before, and is not the one written, reads the same afterwards,
    whether the creation succeeds or fails half-way. *)
Theorem create_file_keeps_other_files st path content q text loc :
  read_local_file st q = inr text →
  FS.resolve st q = inr loc →
  FS.resolve (create_file st path content).1
             (PathLib.to_str (PathLib.of_str path)) ≠ inr loc →
  read_local_file (create_file st path content).1 q = inr text.
Proof.
  intros Hread Hres. unfold create_file, PathLib.mkdir.
  pose proof (mkdir_parents_extends st
                (PathLib.anchored (PathLib.parent (PathLib.of_str path)))
                (reverse (PathLib.parts (PathLib.parent (PathLib.of_str path)))))
    as Hext.
  destruct (PathLib.mkdir_parents _ _ _) as [st1 [e|]]; simpl in Hext.
  { intros _. by eapply read_extends. }
  pose proof (read_extends _ _ _ _ Hext Hread) as Hread1.
  pose proof (resolve_extends _ _ _ _ Hext Hres) as Hres1.
  unfold FS.write_file.
  destruct (FS.resolve st1 (PathLib.to_str (PathLib.of_str path)))
    as [|target] eqn:Htarget; [done|].
  destruct (read_local_file_inv _ _ _ Hread1) as (loc1 & Hres1' & Hkind1).
  assert (loc1 = loc) as -> by congruence.
  assert (Hgoal : FS.kind st1 target ≠ Some FS.Dir →
    FS.resolve (FS.set_node st1 target (FS.File content))
               (PathLib.to_str (PathLib.of_str path)) ≠ inr loc →
    read_local_file (FS.set_node st1 target (FS.File content)) q = inr text).
  { intros Hnd Hne.
    assert (Ht' : FS.resolve (FS.set_node st1 target (FS.File content))
                    (PathLib.to_str (PathLib.of_str path)) = inr target).
    { unfold FS.resolve in *. destruct (PathLib.to_str _); [done|]. simpl.
      by apply walk_set_node. }
    assert (target ≠ loc) by congruence.
    unfold read_local_file, FS.read_file.
    assert (FS.resolve (FS.set_node st1 target (FS.File content)) q = inr loc) as ->.
    { unfold FS.resolve in *. destruct q; [done|]. simpl. by apply walk_set_node. }
    rewrite kind_set_node_ne by done. by rewrite Hkind1. }
  destruct (FS.kind st1 target) as [[t|]|] eqn:Hkind; simpl; [|done|].
  - apply Hgoal. done.
  - apply Hgoal. done.
Qed.

Lemma create_file_keeps_other_files_witness :
  read_local_file (create_file (one_file "a.txt" "A") "docs/b.txt" "B").1 "a.txt"
  = inr "A".
Proof.
  apply (create_file_keeps_other_files (one_file "a.txt" "A") "docs/b.txt" "B"
           "a.txt" "A" ["a.txt"]).
  - reflexivity.
  - reflexivity.
  - vm_compute. discriminate.
Defined.

(** ** A file created and edited by the same response *)


